(** * sf-parking-map: the temporal-rule engine of [time-parser.js]

    A shallow embedding of the five exported functions of the parser
    ([parseDays], [parseTimeRange], [isActiveAt], [intersectsRange],
    [calculateCoverage]) together with the fragment of JavaScript they
    rely on: numbers with [NaN], strings, regular expressions with capture
    groups, insertion-ordered sets and thrown [TypeError]s.  The map's use
    of the parser in [SfParkingMap.jsx] is embedded too: [classifyRegulation],
    [styleForFeature] and the status and filter step that feeds them.

    Modelling conventions.
    - A JavaScript string is a [string] of ASCII characters; [toUpperCase],
      [toLowerCase], [trim] and the class [\s] act on the ASCII range.
    - A finite JavaScript number is an exact rational kept in lowest terms;
      rounding to binary64 and the sign of zero are not represented.  Every
      quantity the parser derives from a string is an integer or [NaN].
    - A property of a record is [undefined], [null], a string or a number.
    - A [Date] is a valid date, reduced to the three getters the code reads.
    - A function that can throw returns a [result]; [null] is [None].

    The file has three parts: the embedding, the vocabulary used to state
    properties, and the lemmas and theorems, the ones about the exported
    functions last; further properties of the parser and of the map close
    the file. *)

From Stdlib Require Import ZArith QArith Qreduction Qcanon List String Ascii Bool Lia.
Import ListNotations.

Local Open Scope Z_scope.

(** ** JavaScript numbers *)

Module JsNum.

Inductive num : Type :=
| NaN
| NegInf
| Fin (q : Q)
| PosInf.

Definition ofZ (z : Z) : num := Fin (inject_Z z).

(** Infinity of the sign given by a comparison with zero; [Eq] is the
    indeterminate form. *)
Definition inf_signed (c : comparison) : num :=
  match c with
  | Eq => NaN
  | Lt => NegInf
  | Gt => PosInf
  end.

(** [a + b] *)
Definition nadd (a b : num) : num :=
  match a, b with
  | NaN, _ | _, NaN => NaN
  | Fin x, Fin y => Fin (Qred (x + y))
  | PosInf, NegInf | NegInf, PosInf => NaN
  | PosInf, _ | _, PosInf => PosInf
  | NegInf, _ | _, NegInf => NegInf
  end.

(** [a - b] *)
Definition nsub (a b : num) : num :=
  match a, b with
  | NaN, _ | _, NaN => NaN
  | Fin x, Fin y => Fin (Qred (x - y))
  | PosInf, PosInf | NegInf, NegInf => NaN
  | PosInf, _ | _, NegInf => PosInf
  | NegInf, _ | _, PosInf => NegInf
  end.

(** [a * b] *)
Definition nmul (a b : num) : num :=
  match a, b with
  | NaN, _ | _, NaN => NaN
  | Fin x, Fin y => Fin (Qred (x * y))
  | Fin x, PosInf | PosInf, Fin x => inf_signed (x ?= 0)%Q
  | Fin x, NegInf | NegInf, Fin x => inf_signed (CompOpp (x ?= 0)%Q)
  | PosInf, PosInf | NegInf, NegInf => PosInf
  | PosInf, NegInf | NegInf, PosInf => NegInf
  end.

(** [a / b] *)
Definition ndiv (a b : num) : num :=
  match a, b with
  | NaN, _ | _, NaN => NaN
  | Fin x, Fin y =>
      if Qeq_bool y 0 then inf_signed (x ?= 0)%Q else Fin (Qred (x / y))
  | Fin _, _ => Fin 0
  | PosInf, Fin y => if Qle_bool 0 y then PosInf else NegInf
  | NegInf, Fin y => if Qle_bool 0 y then NegInf else PosInf
  | _, _ => NaN
  end.

(** [a < b]; every comparison with [NaN] is false. *)
Definition nlt (a b : num) : bool :=
  match a, b with
  | NaN, _ | _, NaN => false
  | Fin x, Fin y => negb (Qle_bool y x)
  | NegInf, NegInf | PosInf, _ | _, NegInf => false
  | _, _ => true
  end.

(** [a <= b] *)
Definition nle (a b : num) : bool :=
  match a, b with
  | NaN, _ | _, NaN => false
  | Fin x, Fin y => Qle_bool x y
  | NegInf, _ | _, PosInf => true
  | _, _ => false
  end.

(** [a > b] and [a >= b] *)
Definition ngt (a b : num) : bool := nlt b a.
Definition nge (a b : num) : bool := nle b a.

(** [a === b] on numbers *)
Definition neq (a b : num) : bool :=
  match a, b with
  | Fin x, Fin y => Qeq_bool x y
  | PosInf, PosInf | NegInf, NegInf => true
  | _, _ => false
  end.

(** [Math.max(a, b)] and [Math.min(a, b)]: [NaN] as soon as one argument is. *)
Definition nmax (a b : num) : num :=
  match a, b with
  | NaN, _ | _, NaN => NaN
  | _, _ => if nle a b then b else a
  end.

Definition nmin (a b : num) : num :=
  match a, b with
  | NaN, _ | _, NaN => NaN
  | _, _ => if nle a b then a else b
  end.

(** Truthiness of a number: everything but [0] and [NaN]. *)
Definition truthy_num (a : num) : bool :=
  match a with
  | NaN => false
  | Fin x => negb (Qeq_bool x 0)
  | _ => true
  end.

(** The values the parser computes from text. *)
Definition intOrNaN (a : num) : Prop := a = NaN \/ exists z, a = ofZ z.

End JsNum.

Import JsNum.

(** ** Thrown exceptions *)

Inductive error : Type :=
| TypeError (msg : string).

Inductive result (A : Type) : Type :=
| Ok (a : A)
| Throw (e : error).

Arguments Ok {A} a.
Arguments Throw {A} e.

Definition bind {A B : Type} (r : result A) (k : A -> result B) : result B :=
  match r with
  | Ok a => k a
  | Throw e => Throw e
  end.

Notation "'let*' x ':=' r 'in' k" := (bind r (fun x => k))
  (at level 10, x name, r at level 100, k at level 200).

(** ** JavaScript strings *)

Module JsString.

Local Open Scope string_scope.

Definition code (c : ascii) : nat := nat_of_ascii c.

(** [\d] *)
Definition isDigit (c : ascii) : bool :=
  ((48 <=? code c) && (code c <=? 57))%nat.

(** [\s], restricted to ASCII: TAB, LF, VT, FF, CR and space. *)
Definition isSpace (c : ascii) : bool :=
  ((code c =? 32) || ((9 <=? code c) && (code c <=? 13)))%nat.

Definition upperChar (c : ascii) : ascii :=
  if ((97 <=? code c) && (code c <=? 122))%nat then ascii_of_nat (code c - 32) else c.

Definition lowerChar (c : ascii) : ascii :=
  if ((65 <=? code c) && (code c <=? 90))%nat then ascii_of_nat (code c + 32) else c.

Fixpoint mapChars (f : ascii -> ascii) (s : string) : string :=
  match s with
  | EmptyString => EmptyString
  | String c s' => String (f c) (mapChars f s')
  end.

Definition toUpperCase : string -> string := mapChars upperChar.
Definition toLowerCase : string -> string := mapChars lowerChar.

Fixpoint allChars (p : ascii -> bool) (s : string) : bool :=
  match s with
  | EmptyString => true
  | String c s' => p c && allChars p s'
  end.

(** [s.includes(sub)] *)
Fixpoint includes (sub s : string) : bool :=
  prefix sub s ||
  match s with
  | EmptyString => false
  | String _ s' => includes sub s'
  end.

(** [s.replace(/\s/g, '')] *)
Fixpoint removeSpaces (s : string) : string :=
  match s with
  | EmptyString => EmptyString
  | String c s' => if isSpace c then removeSpaces s' else String c (removeSpaces s')
  end.

Fixpoint trimStart (s : string) : string :=
  match s with
  | String c s' => if isSpace c then trimStart s' else s
  | EmptyString => EmptyString
  end.

Fixpoint trimEnd (s : string) : string :=
  match s with
  | EmptyString => EmptyString
  | String c s' =>
      match trimEnd s' with
      | EmptyString => if isSpace c then EmptyString else String c EmptyString
      | t => String c t
      end
  end.

(** [s.trim()] *)
Definition trim (s : string) : string := trimEnd (trimStart s).

(** [s.split(sep)] for a one-character separator: the pieces between the
    occurrences of [sep], one more than there are occurrences. *)
Fixpoint splitChar (sep : ascii) (s : string) : list string :=
  match s with
  | EmptyString => [EmptyString]
  | String c s' =>
      if Ascii.eqb c sep then EmptyString :: splitChar sep s'
      else match splitChar sep s' with
           | p :: ps => String c p :: ps
           | [] => [String c EmptyString]
           end
  end.

Fixpoint zeros (n : nat) : string :=
  match n with
  | O => EmptyString
  | S n' => String "0" (zeros n')
  end.

(** [s.padStart(n, '0')] *)
Definition padStart0 (n : nat) (s : string) : string :=
  zeros (n - length s) ++ s.

(** [s.substring(i, j)] for [i <= j] *)
Definition jsSubstring (i j : nat) (s : string) : string :=
  substring i (j - i) s.

Definition digitVal (c : ascii) : Z := Z.of_nat (code c - 48).

(** Value of a run of decimal digits, most significant first. *)
Fixpoint digitsVal (acc : Z) (s : string) : Z :=
  match s with
  | EmptyString => acc
  | String c s' => digitsVal (10 * acc + digitVal c) s'
  end.

(** Longest prefix made of digits. *)
Fixpoint takeDigits (s : string) : string :=
  match s with
  | String c s' => if isDigit c then String c (takeDigits s') else EmptyString
  | EmptyString => EmptyString
  end.

(** An optional sign in front of the digits. *)
Definition stripSign (t : string) : bool * string :=
  match t with
  | String "-" u => (true, u)
  | String "+" u => (false, u)
  | _ => (false, t)
  end.

(** [parseInt(s, 10)]: leading white space is skipped, a sign is accepted,
    then the longest run of digits is read; [NaN] when that run is empty. *)
Definition parseIntStr (s : string) : num :=
  let '(neg, u) := stripSign (trimStart s) in
  match takeDigits u with
  | EmptyString => NaN
  | ds => ofZ (if neg then - digitsVal 0 ds else digitsVal 0 ds)
  end.

(** [parseInt(x, 10)] where [x] is a string or [undefined]; [undefined] is
    first converted to the text "undefined", which has no digit. *)
Definition parseInt (x : option string) : num :=
  match x with
  | Some s => parseIntStr s
  | None => parseIntStr "undefined"
  end.

End JsString.

Import JsString.

(** ** Regular expressions

    A backtracking matcher for the fragment of the pattern language the
    parser uses.  [run] lists the ways a pattern matches at the head of the
    remaining input, most preferred first; the first one that lets the rest
    of the pattern succeed is the match JavaScript reports. *)

Module Regex.

Local Open Scope string_scope.
Local Open Scope nat_scope.

Inductive regex : Type :=
| REmpty
| RChar (p : ascii -> bool)
| RSeq (a b : regex)
| RAlt (a b : regex)
| RRep (lo : nat) (hi : option nat) (a : regex)
| RGroup (n : nat) (a : regex)
| RBol
| REol.

(** Capture groups by number; [None] is a group that did not take part. *)
Definition captures : Type := nat -> option string.

Definition noCaptures : captures := fun _ => None.

Definition setCapture (n : nat) (v : option string) (c : captures) : captures :=
  fun k => if Nat.eqb k n then v else c k.

Definition clearCaptures (ns : list nat) (c : captures) : captures :=
  fun k => if existsb (Nat.eqb k) ns then None else c k.

Record hit : Type := mkHit {
  text : string;      (* what was consumed *)
  rest : string;      (* what is left of the input *)
  caps : captures
}.

Fixpoint groups (r : regex) : list nat :=
  match r with
  | RSeq a b | RAlt a b => groups a ++ groups b
  | RRep _ _ a => groups a
  | RGroup n a => n :: groups a
  | _ => []
  end.

(** Greedy repetition [{lo,hi}] of a matcher [m]: one more round is tried
    before stopping.  A round that consumes nothing is discarded (no
    pattern of the parser has such a round), so [fuel] above the length of
    the input is never used up: the result is the same for any larger
    [fuel] (lemma [rep_fuel]). *)
Fixpoint rep (m : string -> captures -> list hit) (lo : nat) (hi : option nat)
    (fuel : nat) (s : string) (c : captures) : list hit :=
  let stop := match lo with O => [mkHit "" s c] | S _ => [] end in
  match fuel, hi with
  | O, _ => stop
  | _, Some O => stop
  | S fuel', _ =>
      flat_map (fun h1 =>
        match text h1 with
        | EmptyString => []
        | _ => map (fun h2 => mkHit (text h1 ++ text h2) (rest h2) (caps h2))
                   (rep m (pred lo) (option_map pred hi) fuel' (rest h1) (caps h1))
        end) (m s c) ++ stop
  end.

Fixpoint run (whole : string) (r : regex) (s : string) (c : captures) : list hit :=
  match r with
  | REmpty => [mkHit "" s c]
  | RChar p =>
      match s with
      | String x s' => if p x then [mkHit (String x "") s' c] else []
      | EmptyString => []
      end
  | RSeq a b =>
      flat_map (fun h1 =>
        map (fun h2 => mkHit (text h1 ++ text h2) (rest h2) (caps h2))
            (run whole b (rest h1) (caps h1))) (run whole a s c)
  | RAlt a b => run whole a s c ++ run whole b s c
  | RRep lo hi a =>
      rep (fun s' c' => run whole a s' (clearCaptures (groups a) c')) lo hi
          (S (length s)) s c
  | RGroup n a =>
      map (fun h => mkHit (text h) (rest h) (setCapture n (Some (text h)) (caps h)))
          (run whole a s c)
  | RBol => if Nat.eqb (length s) (length whole) then [mkHit "" s c] else []
  | REol => match s with EmptyString => [mkHit "" s c] | _ => [] end
  end.

(** First match starting at the head of [s], else further right. *)
Fixpoint searchFrom (whole : string) (r : regex) (s : string) : option hit :=
  match run whole r s noCaptures with
  | h :: _ => Some h
  | [] =>
      match s with
      | String _ s' => searchFrom whole r s'
      | EmptyString => None
      end
  end.

(** [s.match(r)] for a pattern without the [g] flag *)
Definition exec (r : regex) (s : string) : option hit := searchFrom s r s.

(** [r.test(s)] *)
Definition test (r : regex) (s : string) : bool :=
  match exec r s with Some _ => true | None => false end.

(** [s.split(r)] for a pattern without capture groups.  A separator is
    looked for at each position in turn; an empty separator match moves on
    to the next position.  Here too any [fuel] above the length of the text
    gives the same pieces (lemma [splitLoop_fuel]). *)
Fixpoint splitLoop (whole : string) (r : regex) (fuel : nat) (piece s : string)
    : list string :=
  match fuel with
  | O => [piece ++ s]
  | S fuel' =>
      match s with
      | EmptyString => [piece]
      | String x s' =>
          match run whole r s noCaptures with
          | h :: _ =>
              match text h with
              | EmptyString => splitLoop whole r fuel' (piece ++ String x "") s'
              | _ => piece :: splitLoop whole r fuel' "" (rest h)
              end
          | [] => splitLoop whole r fuel' (piece ++ String x "") s'
          end
      end
  end.

Definition split (r : regex) (s : string) : list string :=
  splitLoop s r (S (length s)) "" s.

(** Pattern syntax. *)
Definition chr (x : ascii) : regex := RChar (Ascii.eqb x).
Definition digit : regex := RChar isDigit.
Definition space : regex := RChar isSpace.
Definition opt (a : regex) : regex := RRep 0 (Some 1) a.
Definition star (a : regex) : regex := RRep 0 None a.
Definition plus (a : regex) : regex := RRep 1 None a.

Fixpoint seq (rs : list regex) : regex :=
  match rs with
  | [] => REmpty
  | [a] => a
  | a :: rs' => RSeq a (seq rs')
  end.

Fixpoint lit (s : string) : regex :=
  match s with
  | EmptyString => REmpty
  | String x EmptyString => chr x
  | String x s' => RSeq (chr x) (lit s')
  end.

End Regex.

Import Regex.

Local Open Scope string_scope.

(** ** Values, records, dates and sets *)

(** The values a record field can hold. *)
Inductive value : Type :=
| VUndefined
| VNull
| VStr (s : string)
| VNum (n : num).

Definition truthy (v : value) : bool :=
  match v with
  | VStr s => negb (s =? "")
  | VNum n => truthy_num n
  | _ => false
  end.

(** [a || b] *)
Definition orElse (a b : value) : value := if truthy a then a else b.

(** A regulation record: the four properties the parser reads. *)
Record Props : Type := mkProps {
  days : value;
  hours : value;
  hrlimit : value;
  regulation : value
}.

(** A valid [Date], seen through [getDay()], [getHours()], [getMinutes()]. *)
Record Date : Type := mkDate {
  getDay : Z;
  getHours : Z;
  getMinutes : Z
}.

Definition validDate (d : Date) : Prop :=
  0 <= getDay d <= 6 /\ 0 <= getHours d <= 23 /\ 0 <= getMinutes d <= 59.

(** [d.getHours() * 60 + d.getMinutes()] *)
Definition minuteOfDay (d : Date) : num := ofZ (getHours d * 60 + getMinutes d).

(** A [Set] of numbers, in insertion order. *)
Module JsSet.

Definition has (s : list Z) (x : Z) : bool := existsb (Z.eqb x) s.

Definition add (s : list Z) (x : Z) : list Z := if has s x then s else s ++ [x].

End JsSet.

Import JsSet.

(** A string, or [undefined], as a capture group or an array slot gives it. *)
Definition strEq (x : option string) (s : string) : bool :=
  match x with
  | Some t => t =? s
  | None => false
  end.

Definition strTruthy (x : option string) : bool :=
  match x with
  | Some t => negb (t =? "")
  | None => false
  end.

(** [x || d] *)
Definition strOr (x : option string) (d : string) : option string :=
  if strTruthy x then x else Some d.

(** Receiver of a string method: calling one on [undefined] throws. *)
Definition receiver (x : option string) : result string :=
  match x with
  | Some t => Ok t
  | None => Throw (TypeError "cannot read properties of undefined")
  end.

(** ** The parser *)

(** Own properties of the [DAY_MAP] object.  Keys are looked up after
    [toUpperCase], and no inherited property of an object has a name free
    of lower-case letters, so a miss is [undefined]. *)
Definition DAY_MAP : list (string * Z) :=
  [("SU", 0); ("MO", 1); ("M", 1); ("TU", 2); ("WE", 3); ("W", 3);
   ("TH", 4); ("FR", 5); ("F", 5); ("SA", 6)].

Fixpoint lookup (table : list (string * Z)) (key : string) : option Z :=
  match table with
  | [] => None
  | (k, v) :: table' => if k =? key then Some v else lookup table' key
  end.

(** [/[,;\s]+/] *)
Definition daySeparator : regex :=
  plus (RChar (fun x => Ascii.eqb x "," || Ascii.eqb x ";" || isSpace x)).

(** [for (let i = start; i <= end; i++) days.add(i)], with [n] rounds left *)
Fixpoint addRange (daysSet : list Z) (i : Z) (n : nat) : list Z :=
  match n with
  | O => daysSet
  | S n' => addRange (add daysSet i) (i + 1) n'
  end.

(** Body of the loop over the parts. *)
Definition addPart (daysSet : list Z) (part : string) : result (list Z) :=
  if includes "-" part then
    let pieces := splitChar "-" part in
    let* startStr := receiver (nth_error pieces 0) in
    let* endStr := receiver (nth_error pieces 1) in
    match lookup DAY_MAP (trim startStr), lookup DAY_MAP (trim endStr) with
    | Some first, Some last => Ok (addRange daysSet first (Z.to_nat (last - first + 1)))
    | _, _ => Ok daysSet
    end
  else
    match lookup DAY_MAP (trim part) with
    | Some day => Ok (add daysSet day)
    | None => Ok daysSet
    end.

Fixpoint addParts (daysSet : list Z) (parts : list string) : result (list Z) :=
  match parts with
  | [] => Ok daysSet
  | part :: parts' => let* daysSet' := addPart daysSet part in addParts daysSet' parts'
  end.

(** [parseDays(str)]: [None] is the [null] result. *)
Definition parseDays (str : value) : result (option (list Z)) :=
  match str with
  | VStr s =>
      if s =? "" then Ok None
      else
        let* daysSet := addParts [] (split daySeparator (toUpperCase s)) in
        Ok (match daysSet with [] => None | _ => Some daysSet end)
  | _ => Ok None
  end.

Record TimeRange : Type := mkTimeRange {
  startMin : num;
  endMin : num
}.

(** [/^(\d{3,4})-(\d{3,4})$/] *)
Definition formatA : regex :=
  seq [RBol; RGroup 1 (RRep 3 (Some 4%nat) digit); chr "-";
       RGroup 2 (RRep 3 (Some 4%nat) digit); REol].

(** [/^(\d{1,2})(:?(\d{2}))?(am|pm)?-(\d{1,2})(:?(\d{2}))?(am|pm)?$/] *)
Definition formatB : regex :=
  seq [RBol;
       RGroup 1 (RRep 1 (Some 2%nat) digit);
       opt (RGroup 2 (RSeq (opt (chr ":")) (RGroup 3 (RRep 2 (Some 2%nat) digit))));
       opt (RGroup 4 (RAlt (lit "am") (lit "pm")));
       chr "-";
       RGroup 5 (RRep 1 (Some 2%nat) digit);
       opt (RGroup 6 (RSeq (opt (chr ":")) (RGroup 7 (RRep 2 (Some 2%nat) digit))));
       opt (RGroup 8 (RAlt (lit "am") (lit "pm")));
       REol].

(** The second branch of [parseTimeRange], from the match array on. *)
Definition fromFormatB (m : hit) : TimeRange :=
  (* let [, h1, m1, ampm1, h2, m2, ampm2] = match; *)
  let h1 := caps m 1%nat in
  let m1 := caps m 2%nat in
  let ampm1 := caps m 3%nat in
  let h2 := caps m 4%nat in
  let m2 := caps m 5%nat in
  let ampm2 := caps m 6%nat in
  let startHour := parseInt h1 in
  let startMinute := parseInt (strOr m1 "0") in
  let endHour := parseInt h2 in
  let endMinute := parseInt (strOr m2 "0") in
  let startHour :=
    if strEq ampm1 "pm" && nlt startHour (ofZ 12) then nadd startHour (ofZ 12)
    else startHour in
  let startHour :=
    if strEq ampm1 "am" && neq startHour (ofZ 12) then ofZ 0 else startHour in
  let endHour :=
    if strEq ampm2 "pm" && nlt endHour (ofZ 12) then nadd endHour (ofZ 12)
    else endHour in
  let endHour :=
    if strEq ampm2 "am" && neq endHour (ofZ 12) then ofZ 0 else endHour in
  let startHour :=
    if strTruthy ampm2 && negb (strTruthy ampm1) then
      if nlt endHour startHour || (neq endHour startHour && nlt endMinute startMinute) then
        if nlt startHour (ofZ 12) then nadd startHour (ofZ 12) else startHour
      else startHour
    else startHour in
  {| startMin := nadd (nmul startHour (ofZ 60)) startMinute;
     endMin := nadd (nmul endHour (ofZ 60)) endMinute |}.

(** The first branch of [parseTimeRange], from the match array on. *)
Definition fromFormatA (m : hit) : result TimeRange :=
  let* g1 := receiver (caps m 1%nat) in
  let startStr := padStart0 4 g1 in
  let* g2 := receiver (caps m 2%nat) in
  let endStr := padStart0 4 g2 in
  let startHour := parseInt (Some (jsSubstring 0 2 startStr)) in
  let startMinute := parseInt (Some (jsSubstring 2 4 startStr)) in
  let endHour := parseInt (Some (jsSubstring 0 2 endStr)) in
  let endMinute := parseInt (Some (jsSubstring 2 4 endStr)) in
  Ok {| startMin := nadd (nmul startHour (ofZ 60)) startMinute;
        endMin := nadd (nmul endHour (ofZ 60)) endMinute |}.

Definition allDay : TimeRange := {| startMin := ofZ 0; endMin := ofZ 1440 |}.

(** The guard of the first [return] of [parseTimeRange] on a string. *)
Definition isAllDayText (s : string) : bool :=
  (s =? "") || includes "ANYTIME" (toUpperCase s) || includes "24 HR" (toUpperCase s).

(** [str.toLowerCase().replace(/\s/g, '')] *)
Definition cleanedOf (s : string) : string := removeSpaces (toLowerCase s).

(** [parseTimeRange(str)]: [None] is the [null] result. *)
Definition parseTimeRange (str : value) : result (option TimeRange) :=
  match str with
  | VStr s =>
      if isAllDayText s then Ok (Some allDay)
      else
        let cleaned := cleanedOf s in
        match exec formatA cleaned with
        | Some m => let* w := fromFormatA m in Ok (Some w)
        | None =>
            match exec formatB cleaned with
            | Some m => Ok (Some (fromFormatB m))
            | None => Ok None
            end
        end
  | _ => Ok (Some allDay)
  end.

(** ** The evaluators *)

(** [isActiveAt], once both properties are parsed. *)
Definition activeAt (activeDays : option (list Z)) (timeRange : option TimeRange)
    (dayOfWeek : Z) (nowMinutes : num) : bool :=
  match activeDays, timeRange with
  | None, None => true
  | None, Some tr =>
      if nle (endMin tr) (startMin tr)
      then nge nowMinutes (startMin tr) || nlt nowMinutes (endMin tr)
      else nge nowMinutes (startMin tr) && nlt nowMinutes (endMin tr)
  | Some ad, None => has ad dayOfWeek
  | Some ad, Some tr =>
      let yesterday := Z.rem (dayOfWeek - 1 + 7) 7 in
      if nle (endMin tr) (startMin tr) then
        if has ad yesterday && nlt nowMinutes (endMin tr) then true
        else if has ad dayOfWeek && nge nowMinutes (startMin tr) then true
        else false
      else has ad dayOfWeek && nge nowMinutes (startMin tr) && nlt nowMinutes (endMin tr)
  end.

Definition isActiveAt (props : Props) (date : Date) : result bool :=
  let* activeDays := parseDays (days props) in
  let* timeRange := parseTimeRange (hours props) in
  Ok (activeAt activeDays timeRange (getDay date) (minuteOfDay date)).

(** The day test of [intersectsRange]: a day set that misses the weekday. *)
Definition excludesDay (activeDays : option (list Z)) (dayOfWeek : Z) : bool :=
  match activeDays with
  | Some ad => negb (has ad dayOfWeek)
  | None => false
  end.

Definition intersectsRange (props : Props) (start end_ : Date) : result bool :=
  let* activeDays := parseDays (days props) in
  let* regTime := parseTimeRange (hours props) in
  let dayOfWeek := getDay start in
  if excludesDay activeDays dayOfWeek then Ok false
  else
    match regTime with
    | None => Ok true
    | Some rt =>
        let userStartMin := minuteOfDay start in
        let userEndMin := minuteOfDay end_ in
        if nle (endMin rt) (startMin rt) then
          let overlaps1 :=
            nlt (nmax (startMin rt) userStartMin) (nmin (ofZ 1440) userEndMin) in
          let overlaps2 :=
            nlt (nmax (ofZ 0) userStartMin) (nmin (endMin rt) userEndMin) in
          Ok (overlaps1 || overlaps2)
        else
          Ok (nlt (nmax (startMin rt) userStartMin) (nmin (endMin rt) userEndMin))
    end.

(** [!activeDays || activeDays.has(dayOfWeek)] *)
Definition regulationAppliesToday (activeDays : option (list Z)) (dayOfWeek : Z) : bool :=
  match activeDays with
  | None => true
  | Some ad => has ad dayOfWeek
  end.

(** [/no\s*parking|tow-?away/] *)
Definition noParkingPattern : regex :=
  RAlt (seq [lit "no"; star space; lit "parking"])
       (seq [lit "tow"; opt (chr "-"); lit "away"]).

(** [/(\d+)/] *)
Definition firstInteger : regex := RGroup 1 (plus digit).

(** The value of [overlapMinutes] when the overlap block of
    [calculateCoverage] is left. *)
Definition overlapMinutes (regTime : option TimeRange)
    (userStartMin userEndMin userDurationMin : num) : num :=
  match regTime with
  | None => userDurationMin
  | Some rt =>
      if neq (startMin rt) (ofZ 0) && neq (endMin rt) (ofZ 1440) then userDurationMin
      else if nle (endMin rt) (startMin rt) then
        let overlap1Start := nmax (startMin rt) userStartMin in
        let overlap1End := nmin (ofZ 1440) userEndMin in
        let acc :=
          if nlt overlap1Start overlap1End
          then nadd (ofZ 0) (nsub overlap1End overlap1Start) else ofZ 0 in
        let overlap2Start := nmax (ofZ 0) userStartMin in
        let overlap2End := nmin (endMin rt) userEndMin in
        if nlt overlap2Start overlap2End
        then nadd acc (nsub overlap2End overlap2Start) else acc
      else
        let overlapStart := nmax (startMin rt) userStartMin in
        let overlapEnd := nmin (endMin rt) userEndMin in
        if nlt overlapStart overlapEnd then nsub overlapEnd overlapStart else ofZ 0
  end.

(** The value of [timeLimitMinutes] after the hour-limit block; [None] is
    [null]. *)
Definition timeLimitMinutes (props : Props) : option num :=
  let timeLimit := orElse (hrlimit props) (hours props) in
  match timeLimit with
  | VStr s =>
      if truthy timeLimit then
        match exec firstInteger s with
        | Some limitMatch => Some (nmul (parseInt (caps limitMatch 1%nat)) (ofZ 60))
        | None => None
        end
      else None
  | VNum n => Some (nmul n (ofZ 60))
  | _ => None
  end.

(** [(props.regulation || '').toLowerCase()] *)
Definition regulationText (props : Props) : result string :=
  match orElse (regulation props) (VStr "") with
  | VStr s => Ok (toLowerCase s)
  | _ => Throw (TypeError "toLowerCase is not a function")
  end.

Definition calculateCoverage (props : Props) (start end_ : Date) : result num :=
  let* activeDays := parseDays (days props) in
  let* regTime := parseTimeRange (hours props) in
  let dayOfWeek := getDay start in
  let* regulationLower := regulationText props in
  let userStartMin := minuteOfDay start in
  let userEndMin := minuteOfDay end_ in
  let userDurationMin := nsub userEndMin userStartMin in
  if nle userDurationMin (ofZ 0) then Ok (ofZ 0)
  else if negb (regulationAppliesToday activeDays dayOfWeek) then Ok (ofZ 1)
  else
    let isNoParking := test noParkingPattern regulationLower in
    let overlap := overlapMinutes regTime userStartMin userEndMin userDurationMin in
    if neq overlap (ofZ 0) then Ok (ofZ 1)
    else if isNoParking then Ok (ndiv (nsub userDurationMin overlap) userDurationMin)
    else
      let fallback := Ok (ndiv (nsub userDurationMin overlap) userDurationMin) in
      match timeLimitMinutes props with
      | Some limit =>
          if truthy_num limit && ngt overlap (ofZ 0) then
            let allowedMinutes := nmin limit overlap in
            let freeMinutes := nadd (nsub userDurationMin overlap) allowedMinutes in
            Ok (nmin (ofZ 1) (ndiv freeMinutes userDurationMin))
          else fallback
      | None => fallback
      end.

(** ** The map: classes, colours and the filter ([SfParkingMap.jsx]) *)

(** The four class names [classifyRegulation] returns. *)
Inductive RegulationClass : Type :=
| CannotPark
| TimeLimit
| NoRegulation
| Unknown.

(** [\w], restricted to ASCII *)
Definition isWordChar (c : ascii) : bool :=
  (isDigit c || ((65 <=? code c) && (code c <=? 90))
   || ((97 <=? code c) && (code c <=? 122)) || (code c =? 95))%nat.

Definition wordCharAt (c : option ascii) : bool :=
  match c with
  | Some x => isWordChar x
  | None => false
  end.

(** [\b] at the position of [whole] where its suffix [s] starts: a word
    character on exactly one side. *)
Definition wordBoundary (whole s : string) : bool :=
  let before :=
    match (length whole - length s)%nat with
    | O => None
    | S k => get k whole
    end in
  xorb (wordCharAt before) (wordCharAt (get 0 s)).

(** [/commercial|truck|taxi|permit\s*only|loading/] *)
Definition restrictedUsePattern : regex :=
  RAlt (lit "commercial")
    (RAlt (lit "truck")
       (RAlt (lit "taxi")
          (RAlt (seq [lit "permit"; star space; lit "only"]) (lit "loading")))).

(** The two alternatives of [/time\s*limit|\b\d+\s*(min|hour|hr|h)\b/], the
    second one without its word boundaries. *)
Definition timeLimitWords : regex := seq [lit "time"; star space; lit "limit"].

Definition durationWords : regex :=
  seq [plus digit; star space;
       RGroup 1 (RAlt (lit "min") (RAlt (lit "hour") (RAlt (lit "hr") (lit "h"))))].

(** A match of the pattern at the head of [s]: the first alternative, or
    the second between two word boundaries. *)
Definition timeLimitTextAt (whole s : string) : bool :=
  match run whole timeLimitWords s noCaptures with
  | _ :: _ => true
  | [] =>
      wordBoundary whole s
      && existsb (fun h => wordBoundary whole (rest h))
                 (run whole durationWords s noCaptures)
  end.

Fixpoint timeLimitTextFrom (whole s : string) : bool :=
  timeLimitTextAt whole s
  || match s with
     | String _ s' => timeLimitTextFrom whole s'
     | EmptyString => false
     end.

(** [/time\s*limit|\b\d+\s*(min|hour|hr|h)\b/.test(text)] *)
Definition timeLimitText (text : string) : bool := timeLimitTextFrom text text.

Definition classifyRegulation (props : Props) : result RegulationClass :=
  let* text := regulationText props in
  let hasTimeLimit := truthy (orElse (hrlimit props) (hours props)) in
  if test noParkingPattern text then Ok CannotPark
  else if test restrictedUsePattern text then Ok CannotPark
  else if hasTimeLimit || timeLimitText text then Ok TimeLimit
  else if (text =? "") || (trim text =? "") then Ok NoRegulation
  else Ok Unknown.

(** A feature of the processed collection: the record and the two marks
    the map adds to it, [None] for [undefined]. *)
Record Feature : Type := mkFeature {
  properties : Props;
  _isActive : option bool;
  _coverage : option num
}.

(** The path options [styleForFeature] returns; a field left out is
    [None]. *)
Record Style : Type := mkStyle {
  color : string;
  weight : Z;
  opacity : option num;
  dashArray : option string
}.

(** [!props._isActive] *)
Definition notActive (feature : Feature) : bool :=
  match _isActive feature with
  | Some b => negb b
  | None => true
  end.

Definition styleForFeature (feature : Feature)
    (showInactiveDim isRangeMode isAtMode : bool) : result Style :=
  let props := properties feature in
  let* cls := classifyRegulation props in
  let solid c := Ok (mkStyle c 3 (Some (ofZ 1)) None) in
  match (if isRangeMode then _coverage feature else None) with
  | Some coverage =>
      solid (if nge coverage (ofZ 1) then "#2196F3"
             else if ngt coverage (ofZ 0) then "#FFC107"
             else "#d73027")
  | None =>
      if isAtMode then
        if notActive feature then solid "#2196F3"
        else
          match cls with
          | CannotPark => solid "#d73027"
          | _ => solid "#2196F3"
          end
      else
        let baseStyle :=
          match cls with
          | CannotPark => mkStyle "#d73027" 4 None None
          | TimeLimit => mkStyle "#FFC107" 3 None None
          | NoRegulation => mkStyle "#2196F3" 3 None None
          | Unknown => mkStyle "#999999" 2 None None
          end in
        if showInactiveDim && notActive feature
        then Ok (mkStyle (color baseStyle) (weight baseStyle) (Some (Fin (3 # 10)))
                         (Some "5, 5"))
        else Ok baseStyle
  end.

(** The time filter, with its three instants as the [Date]s made of
    them. *)
Record Filters : Type := mkFilters {
  simulationEnabled : bool;
  simulationMode : string;
  atTime : Date;
  rangeStart : Date;
  rangeEnd : Date;
  showInactiveDim : bool
}.

(** [filters.simulationEnabled ? filters.simulationMode : 'now'] *)
Definition currentMode (filters : Filters) : string :=
  if simulationEnabled filters then simulationMode filters else "now".

(** The callback mapped over the features of the collection. *)
Definition withStatus (filters : Filters) (props : Props) : result Feature :=
  let mode := currentMode filters in
  if mode =? "now" then Ok (mkFeature props (Some true) None)
  else if mode =? "at" then
    let* isActive := isActiveAt props (atTime filters) in
    Ok (mkFeature props (Some isActive) None)
  else if mode =? "range" then
    let* isActive := intersectsRange props (rangeStart filters) (rangeEnd filters) in
    let* coverage := calculateCoverage props (rangeStart filters) (rangeEnd filters) in
    Ok (mkFeature props (Some isActive) (Some coverage))
  else Ok (mkFeature props None None).

Fixpoint mapFeatures (filters : Filters) (features : list Props)
    : result (list Feature) :=
  match features with
  | [] => Ok []
  | props :: features' =>
      let* f := withStatus filters props in
      let* fs := mapFeatures filters features' in
      Ok (f :: fs)
  end.

(** The features the map draws. *)
Definition processedFeatures (filters : Filters) (features : list Props)
    : result (list Feature) :=
  let* featuresWithStatus := mapFeatures filters features in
  Ok (if showInactiveDim filters then featuresWithStatus
      else filter (fun f => negb (notActive f)) featuresWithStatus).

(** The [style] callback of the layer. *)
Definition styleOf (filters : Filters) (feature : Feature) : result Style :=
  let mode := currentMode filters in
  styleForFeature feature (showInactiveDim filters) (mode =? "range") (mode =? "at").

(** ** Vocabulary of the statements *)

(** Minute of the day of a date, as an integer. *)
Definition minutes (d : Date) : Z := getHours d * 60 + getMinutes d.

(** A day set holds weekday indices only. *)
Definition weekdays (ds : list Z) : Prop := Forall (fun d => 0 <= d <= 6) ds.

(** Parts that add no day: a range that runs backwards, a range with an
    unknown side, a single unknown abbreviation. *)
Inductive Barren (part : string) : Prop :=
| BackwardRange (startStr endStr : string) (others : list string) (first last : Z) :
    splitChar "-" part = startStr :: endStr :: others ->
    lookup DAY_MAP (trim startStr) = Some first ->
    lookup DAY_MAP (trim endStr) = Some last ->
    last < first -> Barren part
| UnknownSide (startStr endStr : string) (others : list string) :
    splitChar "-" part = startStr :: endStr :: others ->
    lookup DAY_MAP (trim startStr) = None \/ lookup DAY_MAP (trim endStr) = None ->
    Barren part
| UnknownDay :
    includes "-" part = false -> lookup DAY_MAP (trim part) = None -> Barren part.

(** A window whose fields are integers or [NaN]. *)
Definition wellShaped (w : TimeRange) : Prop :=
  intOrNaN (startMin w) /\ intOrNaN (endMin w).

(** Text captured by [(\d{3,4})]. *)
Definition clockDigits (t : string) : Prop :=
  allChars isDigit t = true /\ (3 <= length t <= 4)%nat.

(** The two fields of such a group read as the number HHMM: the hours are
    the number divided by 100, the minutes the remainder. *)
Definition hourField (t : string) : Z := digitsVal 0 t / 100.

Definition minuteField (t : string) : Z := digitsVal 0 t mod 100.

(** The characters the two time formats are made of. *)
Definition clockChar (x : ascii) : bool :=
  isDigit x || Ascii.eqb x ":" || Ascii.eqb x "a" || Ascii.eqb x "m"
  || Ascii.eqb x "p" || Ascii.eqb x "-".

(** The first integer written in a text: the digits from the first digit
    on, read in base ten. *)
Fixpoint firstIntegerOf (s : string) : option Z :=
  match s with
  | EmptyString => None
  | String c s' =>
      if isDigit c then Some (digitsVal 0 (takeDigits s)) else firstIntegerOf s'
  end.

(** What a matcher consumes and what it leaves make up its input. *)
Definition splits (m : string -> captures -> list hit) : Prop :=
  forall s c h, In h (m s c) -> s = text h ++ rest h.

(** Every character class of the pattern lies within [A]. *)
Fixpoint charsWithin (A : ascii -> bool) (r : regex) : Prop :=
  match r with
  | RChar p => forall x, p x = true -> A x = true
  | RSeq a b | RAlt a b => charsWithin A a /\ charsWithin A b
  | RRep _ _ a | RGroup _ a => charsWithin A a
  | _ => True
  end.

Fixpoint startsAtBol (r : regex) : Prop :=
  match r with
  | RBol => True
  | RSeq a _ => startsAtBol a
  | _ => False
  end.

Fixpoint endsAtEol (r : regex) : Prop :=
  match r with
  | REol => True
  | RSeq _ b => endsAtEol b
  | _ => False
  end.

Fixpoint occurs (x : ascii) (s : string) : bool :=
  match s with
  | EmptyString => false
  | String y s' => Ascii.eqb x y || occurs x s'
  end.

(** The records of the end-to-end scenarios. *)
Definition nightRule : Props :=
  mkProps VUndefined (VStr "2200-0600") VUndefined VUndefined.

Definition noParkingSign : Props :=
  mkProps (VStr "M-F") (VStr "0900-1800") VUndefined (VStr "No parking 9am-6pm").

Definition meteredSign : Props :=
  mkProps (VStr "M-F") (VStr "0900-1800") (VStr "2") VUndefined.

Definition dayRule : Props :=
  mkProps VUndefined (VStr "0900-1800") VUndefined VUndefined.

Definition numericRegulation : Props :=
  mkProps VUndefined VUndefined VUndefined (VNum (ofZ 5)).

(** ** Vocabulary of the further statements *)

(** The days a part of the day text stands for. *)
Definition contributes (part : string) (d : Z) : Prop :=
  (includes "-" part = true /\
   exists startStr endStr others first last,
     splitChar "-" part = startStr :: endStr :: others /\
     lookup DAY_MAP (trim startStr) = Some first /\
     lookup DAY_MAP (trim endStr) = Some last /\
     first <= d <= last) \/
  (includes "-" part = false /\ lookup DAY_MAP (trim part) = Some d).

(** Minutes since midnight written as the number HHMM. *)
Definition clockMinutes (t : string) : Z :=
  (digitsVal 0 t / 100) * 60 + digitsVal 0 t mod 100.

(** Records and filter settings of the further scenarios. *)
Definition saturdayNight : Props :=
  mkProps (VStr "SA") (VStr "2200-0600") VUndefined (VStr "No parking").

Definition sweepingRule : Props :=
  mkProps (VStr "M-F") (VStr "0900-1800") VUndefined (VStr "Street cleaning").

Definition unreadableHours : Props :=
  mkProps (VStr "M-F") (VStr "see sign") VUndefined VUndefined.

Definition unmarkedSegment : Props :=
  mkProps VUndefined VUndefined VUndefined VUndefined.

Definition amPmSign : Props :=
  mkProps (VStr "M-F") (VStr "8am-6pm") VUndefined (VStr "No parking").

Definition nightWindow : TimeRange := {| startMin := ofZ 1320; endMin := ofZ 360 |}.

(** Range mode, Monday 08:00 to 10:00, inactive segments dimmed or hidden. *)
Definition mondayQuery : Filters :=
  mkFilters true "range" (mkDate 1 8 0) (mkDate 1 8 0) (mkDate 1 10 0) true.

Definition mondayQueryHidden : Filters :=
  mkFilters true "range" (mkDate 1 8 0) (mkDate 1 8 0) (mkDate 1 10 0) false.

(** At mode, Monday 10:00, inactive segments hidden. *)
Definition mondayInstant : Filters :=
  mkFilters true "at" (mkDate 1 10 0) (mkDate 1 8 0) (mkDate 1 10 0) false.

Create Rewrite HintDb ofZ.

Ltac not_in_groups := cbn; intuition discriminate.

Ltac split_ifs :=
  repeat (autorewrite with ofZ;
          match goal with
          | |- context [if ?b then _ else _] => destruct b eqn:?
          end);
  autorewrite with ofZ.

Ltac split_ifs_in H :=
  repeat (autorewrite with ofZ in H;
          match type of H with
          | context [if ?b then _ else _] => destruct b eqn:?
          end);
  autorewrite with ofZ in H.

(** ** Arithmetic on integer-valued numbers *)

Section IntegerNumbers.

Lemma Qred_inject (z : Z) : Qred (inject_Z z) = inject_Z z.
Proof.
  apply Qred_identity. unfold inject_Z. simpl. apply Z.gcd_1_r.
Qed.

Lemma nadd_ofZ (a b : Z) : nadd (ofZ a) (ofZ b) = ofZ (a + b).
Proof.
  unfold nadd, ofZ. rewrite <- inject_Z_plus, Qred_inject. reflexivity.
Qed.

Lemma nsub_ofZ (a b : Z) : nsub (ofZ a) (ofZ b) = ofZ (a - b).
Proof.
  unfold nsub, ofZ, Qminus.
  rewrite <- inject_Z_opp, <- inject_Z_plus, Qred_inject. reflexivity.
Qed.

Lemma nmul_ofZ (a b : Z) : nmul (ofZ a) (ofZ b) = ofZ (a * b).
Proof.
  unfold nmul, ofZ. rewrite <- inject_Z_mult, Qred_inject. reflexivity.
Qed.

Lemma nle_ofZ (a b : Z) : nle (ofZ a) (ofZ b) = (a <=? b)%Z.
Proof.
  unfold nle, ofZ, Qle_bool, inject_Z. simpl. rewrite !Z.mul_1_r. reflexivity.
Qed.

Lemma nlt_ofZ (a b : Z) : nlt (ofZ a) (ofZ b) = (a <? b)%Z.
Proof.
  unfold nlt, ofZ, Qle_bool, inject_Z. simpl. rewrite !Z.mul_1_r.
  rewrite Z.ltb_antisym. reflexivity.
Qed.

Lemma neq_ofZ (a b : Z) : neq (ofZ a) (ofZ b) = (a =? b)%Z.
Proof.
  unfold neq, ofZ, Qeq_bool, inject_Z. simpl. rewrite !Z.mul_1_r.
  reflexivity.
Qed.

Lemma nmax_ofZ (a b : Z) : nmax (ofZ a) (ofZ b) = ofZ (Z.max a b).
Proof.
  unfold nmax, nle, ofZ, Qle_bool, inject_Z. simpl. rewrite !Z.mul_1_r.
  destruct (Z.leb_spec a b); do 2 f_equal; lia.
Qed.

Lemma nmin_ofZ (a b : Z) : nmin (ofZ a) (ofZ b) = ofZ (Z.min a b).
Proof.
  unfold nmin, nle, ofZ, Qle_bool, inject_Z. simpl. rewrite !Z.mul_1_r.
  destruct (Z.leb_spec a b); do 2 f_equal; lia.
Qed.

Lemma truthy_ofZ (a : Z) : truthy_num (ofZ a) = negb (a =? 0)%Z.
Proof.
  change (truthy_num (ofZ a)) with (negb (neq (ofZ a) (ofZ 0))).
  rewrite neq_ofZ. reflexivity.
Qed.

Lemma ofZ_inj (a b : Z) : ofZ a = ofZ b -> a = b.
Proof.
  unfold ofZ, inject_Z. intros H. injection H. trivial.
Qed.

(** A positive integer divided by itself is exactly [1]. *)
Lemma ndiv_same (d : Z) : 0 < d -> ndiv (ofZ d) (ofZ d) = ofZ 1.
Proof.
  intros Hd. unfold ndiv, ofZ.
  destruct (Qeq_bool (inject_Z d) 0) eqn:E.
  - apply Qeq_bool_eq in E. unfold Qeq, inject_Z in E. simpl in E. lia.
  - f_equal. rewrite <- (Qred_inject 1). apply Qred_complete.
    apply Qeq_bool_neq in E. change (inject_Z 1) with 1%Q. field. exact E.
Qed.

End IntegerNumbers.

#[local] Hint Rewrite nadd_ofZ nsub_ofZ nmul_ofZ nle_ofZ nlt_ofZ neq_ofZ
  nmax_ofZ nmin_ofZ truthy_ofZ : ofZ.

(** ** Strings *)

Section StringFacts.

Lemma digit_not_space (c : ascii) : isDigit c = true -> isSpace c = false.
Proof.
  unfold isDigit, isSpace. intros H.
  apply andb_true_iff in H. destruct H as [H1 H2].
  apply Nat.leb_le in H1. apply Nat.leb_le in H2.
  apply orb_false_iff. split.
  - apply Nat.eqb_neq. lia.
  - apply andb_false_iff. right. apply Nat.leb_gt. lia.
Qed.

Lemma digitVal_range (c : ascii) : isDigit c = true -> 0 <= digitVal c <= 9.
Proof.
  unfold isDigit, digitVal. intros H.
  apply andb_true_iff in H. destruct H as [H1 H2].
  apply Nat.leb_le in H1. apply Nat.leb_le in H2. lia.
Qed.

Lemma stripSign_digit (c : ascii) (s : string) :
  isDigit c = true -> stripSign (String c s) = (false, String c s).
Proof.
  destruct c as [[] [] [] [] [] [] [] []]; intros H;
    solve [reflexivity | discriminate H].
Qed.

Lemma takeDigits_all (s : string) : allChars isDigit s = true -> takeDigits s = s.
Proof.
  induction s as [|c s IH]; simpl; [reflexivity|].
  intros H. apply andb_true_iff in H. destruct H as [Hc Hs].
  rewrite Hc, IH by assumption. reflexivity.
Qed.

Lemma takeDigits_digits (s : string) : allChars isDigit (takeDigits s) = true.
Proof.
  induction s as [|c s IH]; simpl; [reflexivity|].
  destruct (isDigit c) eqn:E; simpl; [rewrite E, IH|]; reflexivity.
Qed.

Lemma digitsVal_nonneg (s : string) :
  forall acc, allChars isDigit s = true -> 0 <= acc -> 0 <= digitsVal acc s.
Proof.
  induction s as [|c s IH]; cbn [allChars digitsVal]; intros acc H Hacc; [assumption|].
  apply andb_true_iff in H. destruct H as [Hc Hs].
  apply IH; [assumption|]. pose proof (digitVal_range c Hc). lia.
Qed.

(** On a non-empty run of digits [parseInt] reads the whole run. *)
Lemma parseIntStr_digits (c : ascii) (s : string) :
  allChars isDigit (String c s) = true ->
  parseIntStr (String c s) = ofZ (digitsVal 0 (String c s)).
Proof.
  intros H. pose proof H as H'. simpl in H'.
  apply andb_true_iff in H'. destruct H' as [Hc Hs].
  unfold parseIntStr. simpl trimStart. rewrite (digit_not_space c Hc).
  rewrite (stripSign_digit c s Hc), (takeDigits_all _ H). reflexivity.
Qed.

Lemma parseIntStr_shape (s : string) : intOrNaN (parseIntStr s).
Proof.
  unfold parseIntStr. destruct (stripSign (trimStart s)) as [neg u].
  destruct (takeDigits u); [left; reflexivity | right; eexists; reflexivity].
Qed.

Lemma parseInt_shape (x : option string) : intOrNaN (parseInt x).
Proof. destruct x; apply parseIntStr_shape. Qed.

(** A two-digit text reads as a number between 0 and 99. *)
Lemma parseInt_two_digits (a b : ascii) :
  isDigit a = true -> isDigit b = true ->
  exists n, parseInt (Some (String a (String b ""))) = ofZ n /\ 0 <= n <= 99.
Proof.
  intros Ha Hb. exists (digitsVal 0 (String a (String b ""))). split.
  - apply parseIntStr_digits. simpl. rewrite Ha, Hb. reflexivity.
  - cbn [digitsVal]. pose proof (digitVal_range a Ha).
    pose proof (digitVal_range b Hb). lia.
Qed.

Lemma prefix_char (x c : ascii) (s : string) :
  prefix (String x "") (String c s) = Ascii.eqb c x.
Proof.
  simpl. destruct (ascii_dec x c) as [->|Hne].
  - rewrite Ascii.eqb_refl. destruct s; reflexivity.
  - symmetry. apply Ascii.eqb_neq. congruence.
Qed.

Lemma splitChar_nonempty (sep : ascii) (s : string) : splitChar sep s <> [].
Proof.
  destruct s as [|c s]; simpl; [discriminate|].
  destruct (Ascii.eqb c sep); [discriminate|].
  destruct (splitChar sep s); discriminate.
Qed.

(** A text that includes the separator splits into at least two pieces. *)
Lemma splitChar_includes (sep : ascii) (s : string) :
  includes (String sep "") s = true ->
  exists a b l, splitChar sep s = a :: b :: l.
Proof.
  induction s as [|c s IH]; [discriminate|].
  cbn [includes splitChar]. rewrite prefix_char.
  destruct (Ascii.eqb c sep).
  - intros _. pose proof (splitChar_nonempty sep s) as Hne.
    destruct (splitChar sep s) as [|p ps]; [congruence|]. eauto.
  - cbn [orb]. intros H. destruct (IH H) as (a & b & l & E).
    rewrite E. eauto.
Qed.

Lemma splitChar_excludes (sep : ascii) (s : string) :
  includes (String sep "") s = false -> splitChar sep s = [s].
Proof.
  induction s as [|c s IH]; [reflexivity|].
  cbn [includes splitChar]. rewrite prefix_char.
  destruct (Ascii.eqb c sep); [discriminate|].
  cbn [orb]. intros H. rewrite (IH H). reflexivity.
Qed.

End StringFacts.

(** ** The matcher *)

Section MatcherFacts.

Local Open Scope nat_scope.

Variable whole : string.

Lemma in_stop (lo : nat) (s : string) (c : captures) (h : hit) :
  In h (match lo with O => [mkHit "" s c] | S _ => [] end) ->
  lo = 0 /\ h = mkHit "" s c.
Proof.
  destruct lo; simpl; intros H; [|contradiction].
  destruct H as [H|[]]. auto.
Qed.

(** One unfolding of a repetition. *)
Lemma in_rep (m : string -> captures -> list hit) (lo : nat) (hi : option nat)
    (fuel : nat) (s : string) (c : captures) (h : hit) :
  In h (rep m lo hi fuel s c) ->
  (lo = 0 /\ h = mkHit "" s c) \/
  (exists fuel' h1 h2,
      fuel = S fuel' /\ hi <> Some 0 /\ In h1 (m s c) /\ text h1 <> "" /\
      In h2 (rep m (pred lo) (option_map pred hi) fuel' (rest h1) (caps h1)) /\
      h = mkHit (text h1 ++ text h2) (rest h2) (caps h2)).
Proof.
  assert (Hmore : forall fuel',
    hi <> Some 0 ->
    In h (flat_map (fun h1 =>
            match text h1 with
            | EmptyString => []
            | _ => map (fun h2 => mkHit (text h1 ++ text h2) (rest h2) (caps h2))
                       (rep m (pred lo) (option_map pred hi) fuel' (rest h1) (caps h1))
            end) (m s c)) ->
    exists h1 h2,
      hi <> Some 0 /\ In h1 (m s c) /\ text h1 <> "" /\
      In h2 (rep m (pred lo) (option_map pred hi) fuel' (rest h1) (caps h1)) /\
      h = mkHit (text h1 ++ text h2) (rest h2) (caps h2)).
  { intros fuel' Hhi H. apply in_flat_map in H. destruct H as (h1 & Hin1 & H).
    destruct (text h1) eqn:Et; [contradiction|].
    apply in_map_iff in H. destruct H as (h2 & <- & Hin2).
    exists h1, h2. rewrite Et. repeat split; auto. discriminate. }
  destruct fuel as [|fuel']; [intros H; left; apply in_stop; exact H|].
  destruct hi as [[|n]|]; cbn [rep]; intros H.
  - left. apply in_stop. exact H.
  - apply in_app_or in H. destruct H as [H|H]; [|left; apply in_stop; exact H].
    right. destruct (Hmore fuel' ltac:(discriminate) H) as (h1 & h2 & ?).
    exists fuel', h1, h2. intuition.
  - apply in_app_or in H. destruct H as [H|H]; [|left; apply in_stop; exact H].
    right. destruct (Hmore fuel' ltac:(discriminate) H) as (h1 & h2 & ?).
    exists fuel', h1, h2. intuition.
Qed.

Lemma in_run_seq (a b : regex) (s : string) (c : captures) (h : hit) :
  In h (run whole (RSeq a b) s c) ->
  exists h1 h2,
    In h1 (run whole a s c) /\ In h2 (run whole b (rest h1) (caps h1)) /\
    h = mkHit (text h1 ++ text h2) (rest h2) (caps h2).
Proof.
  cbn [run]. intros H. apply in_flat_map in H. destruct H as (h1 & Hin1 & H).
  apply in_map_iff in H. destruct H as (h2 & <- & Hin2). eauto.
Qed.

Lemma in_run_group (n : nat) (a : regex) (s : string) (c : captures) (h : hit) :
  In h (run whole (RGroup n a) s c) ->
  exists h1,
    In h1 (run whole a s c) /\
    h = mkHit (text h1) (rest h1) (setCapture n (Some (text h1)) (caps h1)).
Proof.
  cbn [run]. intros H. apply in_map_iff in H. destruct H as (h1 & <- & Hin). eauto.
Qed.

Lemma in_run_char (p : ascii -> bool) (s : string) (c : captures) (h : hit) :
  In h (run whole (RChar p) s c) ->
  exists x s', s = String x s' /\ p x = true /\ h = mkHit (String x "") s' c.
Proof.
  cbn [run]. destruct s as [|x s']; [contradiction|].
  destruct (p x) eqn:E; [|contradiction].
  intros [<-|[]]. eauto.
Qed.

(** An optional pattern either matches once or is skipped. *)
Lemma in_run_opt (a : regex) (s : string) (c : captures) (h : hit) :
  In h (run whole (opt a) s c) ->
  h = mkHit "" s c \/
  exists h1, In h1 (run whole a s (clearCaptures (groups a) c)) /\
             h = mkHit (text h1 ++ "") (rest h1) (caps h1).
Proof.
  unfold opt. cbn [run]. intros H. apply in_rep in H.
  destruct H as [[_ H]|(fuel' & h1 & h2 & _ & _ & Hin1 & _ & Hin2 & ->)]; [auto|].
  right. exists h1. split; [exact Hin1|].
  cbn [pred option_map] in Hin2.
  assert (E : h2 = mkHit "" (rest h1) (caps h1)).
  { destruct fuel'; cbn [rep] in Hin2; destruct Hin2 as [<-|[]]; reflexivity. }
  rewrite E. reflexivity.
Qed.

(** Groups that a pattern does not contain keep their capture. *)
Lemma rep_frame (m : string -> captures -> list hit) (k : nat) :
  (forall s c h, In h (m s c) -> caps h k = c k) ->
  forall fuel lo hi s c h, In h (rep m lo hi fuel s c) -> caps h k = c k.
Proof.
  intros Hm. induction fuel as [|fuel IH]; intros lo hi s c h H;
    apply in_rep in H;
    destruct H as [[_ ->]|(fuel' & h1 & h2 & Ef & _ & Hin1 & _ & Hin2 & ->)];
    try reflexivity; try discriminate.
  injection Ef as <-. cbn [caps].
  rewrite (IH _ _ _ _ _ Hin2). apply (Hm _ _ _ Hin1).
Qed.

Lemma clearCaptures_other (ns : list nat) (c : captures) (k : nat) :
  ~ In k ns -> clearCaptures ns c k = c k.
Proof.
  intros Hk. unfold clearCaptures.
  destruct (existsb (Nat.eqb k) ns) eqn:E; [|reflexivity].
  apply existsb_exists in E. destruct E as (x & Hx & Ex).
  apply Nat.eqb_eq in Ex. subst x. contradiction.
Qed.

Lemma run_frame (r : regex) (k : nat) :
  ~ In k (groups r) ->
  forall s c h, In h (run whole r s c) -> caps h k = c k.
Proof.
  induction r as [|p|a IHa b IHb|a IHa b IHb|lo hi a IHa|n a IHa| |];
    cbn [groups]; intros Hk s c h H.
  - destruct H as [<-|[]]. reflexivity.
  - apply in_run_char in H. destruct H as (x & s' & _ & _ & ->). reflexivity.
  - apply in_run_seq in H. destruct H as (h1 & h2 & H1 & H2 & ->). cbn [caps].
    rewrite (IHb ltac:(intros ?; apply Hk, in_or_app; auto) _ _ _ H2).
    apply (IHa ltac:(intros ?; apply Hk, in_or_app; auto) _ _ _ H1).
  - cbn [run] in H. apply in_app_or in H. destruct H as [H|H].
    + apply (IHa ltac:(intros ?; apply Hk, in_or_app; auto) _ _ _ H).
    + apply (IHb ltac:(intros ?; apply Hk, in_or_app; auto) _ _ _ H).
  - cbn [run] in H. revert H. apply rep_frame.
    intros s' c' h' H'. rewrite (IHa Hk _ _ _ H').
    apply clearCaptures_other. exact Hk.
  - apply in_run_group in H. destruct H as (h1 & H1 & ->). cbn [caps].
    unfold setCapture. destruct (Nat.eqb_spec k n) as [->|Hne].
    + exfalso. apply Hk. left. reflexivity.
    + apply (IHa ltac:(intros ?; apply Hk; right; assumption) _ _ _ H1).
  - cbn [run] in H. destruct (length s =? length whole); [|contradiction].
    destruct H as [<-|[]]. reflexivity.
  - cbn [run] in H. destruct s; [|contradiction].
    destruct H as [<-|[]]. reflexivity.
Qed.

(** A bounded run of one character class. *)
Lemma rep_chars (p : ascii -> bool) :
  forall fuel lo hi s c h,
    In h (rep (fun s' c' => run whole (RChar p) s' (clearCaptures [] c')) lo hi fuel s c) ->
    allChars p (text h) = true /\ lo <= length (text h) /\
    (forall n, hi = Some n -> length (text h) <= n).
Proof.
  induction fuel as [|fuel IH]; intros lo hi s c h H;
    apply in_rep in H;
    destruct H as [[-> ->]|(fuel' & h1 & h2 & Ef & Hhi & Hin1 & _ & Hin2 & ->)];
    try (cbn; repeat split; intros; lia); try discriminate.
  injection Ef as <-.
  apply in_run_char in Hin1. destruct Hin1 as (x & s' & -> & Hpx & ->).
  cbn [text rest caps] in *.
  destruct (IH _ _ _ _ _ Hin2) as (Hall & Hlo & Hup).
  cbn [append allChars length]. rewrite Hpx, Hall. repeat split; [lia|].
  intros n ->. destruct n as [|n]; [congruence|].
  specialize (Hup n eq_refl). lia.
Qed.

Lemma run_rep_chars (p : ascii -> bool) (lo : nat) (hi : option nat)
    (s : string) (c : captures) (h : hit) :
  In h (run whole (RRep lo hi (RChar p)) s c) ->
  allChars p (text h) = true /\ lo <= length (text h) /\
  (forall n, hi = Some n -> length (text h) <= n).
Proof. apply rep_chars. Qed.

Lemma searchFrom_in (r : regex) (s : string) (h : hit) :
  searchFrom whole r s = Some h ->
  exists s', In h (run whole r s' noCaptures).
Proof.
  induction s as [|x s IH]; cbn [searchFrom].
  - destruct (run whole r "" noCaptures) as [|h0 l] eqn:E; [discriminate|].
    intros [= <-]. exists "". rewrite E. left. reflexivity.
  - destruct (run whole r (String x s) noCaptures) as [|h0 l] eqn:E; [exact IH|].
    intros [= <-]. exists (String x s). rewrite E. left. reflexivity.
Qed.

End MatcherFacts.

(** ** Splitting of the input, and fuel *)

Section MatcherSplits.

Local Open Scope nat_scope.

Variable whole : string.

Lemma append_assoc3 (a b c : string) : (a ++ b) ++ c = a ++ (b ++ c).
Proof. induction a as [|x a IH]; cbn [append]; [reflexivity|]. rewrite IH. reflexivity. Qed.

Lemma append_length (a b : string) : length (a ++ b) = length a + length b.
Proof. induction a as [|x a IH]; cbn [append length]; [reflexivity|]. rewrite IH. reflexivity. Qed.

Lemma rep_splits (m : string -> captures -> list hit) :
  splits m -> forall fuel lo hi, splits (rep m lo hi fuel).
Proof.
  intros Hm. induction fuel as [|fuel IH]; intros lo hi s c h H;
    apply in_rep in H;
    destruct H as [[_ ->]|(fuel' & h1 & h2 & Ef & _ & Hin1 & _ & Hin2 & ->)];
    try reflexivity; try discriminate.
  injection Ef as <-. cbn [text rest].
  rewrite append_assoc3, <- (IH _ _ _ _ _ Hin2). apply (Hm _ _ _ Hin1).
Qed.

(** What a match consumes and what it leaves make up the input. *)
Lemma run_splits (r : regex) : splits (run whole r).
Proof.
  induction r as [|p|a IHa b IHb|a IHa b IHb|lo hi a IHa|n a IHa| |];
    intros s c h H.
  - destruct H as [<-|[]]. reflexivity.
  - apply in_run_char in H. destruct H as (x & s' & -> & _ & ->). reflexivity.
  - apply in_run_seq in H. destruct H as (h1 & h2 & H1 & H2 & ->). cbn [text rest].
    rewrite append_assoc3, <- (IHb _ _ _ H2). apply (IHa _ _ _ H1).
  - cbn [run] in H. apply in_app_or in H.
    destruct H as [H|H]; [apply (IHa _ _ _ H)|apply (IHb _ _ _ H)].
  - cbn [run] in H. revert H. apply rep_splits.
    intros s' c' h' H'. apply (IHa _ _ _ H').
  - apply in_run_group in H. destruct H as (h1 & H1 & ->). apply (IHa _ _ _ H1).
  - cbn [run] in H. destruct (length s =? length whole); [|contradiction].
    destruct H as [<-|[]]. reflexivity.
  - cbn [run] in H. destruct s; [|contradiction].
    destruct H as [<-|[]]. reflexivity.
Qed.

Lemma rest_shorter (s : string) (h : hit) :
  s = text h ++ rest h -> text h <> "" -> length (rest h) < length s.
Proof.
  intros -> Hne. rewrite append_length.
  destruct (text h); [congruence|]. cbn [length]. lia.
Qed.

Lemma flat_map_same {A B : Type} (f g : A -> list B) (l : list A) :
  (forall a, In a l -> f a = g a) -> flat_map f l = flat_map g l.
Proof.
  induction l as [|a l IH]; intros H; cbn [flat_map]; [reflexivity|].
  rewrite (H a (or_introl eq_refl)), IH; [reflexivity|].
  intros a' Ha'. apply H. right. exact Ha'.
Qed.

(** Fuel above the length of the input is never used up: the result of a
    repetition does not depend on it. *)
Lemma rep_fuel (m : string -> captures -> list hit) :
  splits m ->
  forall f1 f2 lo hi s c,
    length s < f1 -> length s < f2 -> rep m lo hi f1 s c = rep m lo hi f2 s c.
Proof.
  intros Hm. induction f1 as [|f1 IH]; intros f2 lo hi s c H1 H2; [lia|].
  destruct f2 as [|f2]; [lia|]. cbn [rep].
  destruct hi as [[|n]|]; [reflexivity| |];
    (f_equal; apply flat_map_same; intros h1 Hin;
     destruct (text h1) eqn:Et; [reflexivity|];
     f_equal; apply IH;
     pose proof (rest_shorter s h1 (Hm _ _ _ Hin) ltac:(rewrite Et; discriminate));
     lia).
Qed.

(** The same holds for the loop of [split]. *)
Lemma splitLoop_fuel (r : regex) :
  forall f1 f2 piece s,
    length s < f1 -> length s < f2 ->
    splitLoop whole r f1 piece s = splitLoop whole r f2 piece s.
Proof.
  induction f1 as [|f1 IH]; intros f2 piece s H1 H2; [lia|].
  destruct f2 as [|f2]; [lia|]. cbn [splitLoop].
  destruct s as [|x s']; [reflexivity|]. cbn [length] in H1, H2.
  destruct (run whole r (String x s') noCaptures) as [|h l] eqn:E.
  - apply IH; lia.
  - destruct (text h) eqn:Et; [apply IH; lia|].
    f_equal. apply IH;
      pose proof (rest_shorter (String x s') h
                    (run_splits r _ _ h ltac:(rewrite E; left; reflexivity))
                    ltac:(rewrite Et; discriminate)) as Hs;
      cbn [length] in Hs; lia.
Qed.

(** So the fuel the matcher and [split] start with is as good as any. *)
Lemma run_rep_fuel (r : regex) (lo : nat) (hi : option nat) (fuel : nat)
    (s : string) (c : captures) :
  length s < fuel ->
  run whole (RRep lo hi r) s c
  = rep (fun s' c' => run whole r s' (clearCaptures (groups r) c')) lo hi fuel s c.
Proof.
  intros Hf. cbn [run]. apply rep_fuel; [|lia|exact Hf].
  intros s' c' h H. apply (run_splits r _ _ _ H).
Qed.

End MatcherSplits.

Lemma split_fuel (r : regex) (fuel : nat) (s : string) :
  (length s < fuel)%nat -> split r s = splitLoop s r fuel "" s.
Proof. intros Hf. unfold split. apply splitLoop_fuel; [lia|exact Hf]. Qed.

(** ** The two time formats *)

Section TimeFormats.

Local Open Scope nat_scope.

Variable whole : string.

Lemma in_run_chr (x : ascii) (s : string) (c : captures) (h : hit) :
  In h (run whole (chr x) s c) ->
  exists s', s = String x s' /\ h = mkHit (String x "") s' c.
Proof.
  intros H. apply in_run_char in H. destruct H as (y & s' & -> & E & ->).
  apply Ascii.eqb_eq in E. subst y. eauto.
Qed.

Lemma in_run_meridiem (s : string) (c : captures) (h : hit) :
  In h (run whole (RAlt (lit "am") (lit "pm")) s c) ->
  text h = "am" \/ text h = "pm".
Proof.
  cbn [run lit]. intros H. apply in_app_or in H.
  destruct H as [H|H]; apply in_run_seq in H;
    destruct H as (h1 & h2 & H1 & H2 & ->);
    apply in_run_chr in H1; destruct H1 as (s1 & -> & ->);
    apply in_run_chr in H2; destruct H2 as (s2 & _ & ->); auto.
Qed.

Lemma run_keeps (r : regex) (s : string) (c : captures) (h : hit) (k : nat) :
  In h (run whole r s c) -> ~ In k (groups r) -> caps h k = c k.
Proof. intros H Hk. exact (run_frame whole r k Hk s c h H). Qed.

(** Group 4 of the flexible format is the start side's meridiem. *)
Lemma formatB_group4 (s : string) (h : hit) :
  In h (run whole formatB s noCaptures) ->
  caps h 4 = None \/ caps h 4 = Some "am" \/ caps h 4 = Some "pm".
Proof.
  unfold formatB. cbn [seq]. intros H.
  apply in_run_seq in H. destruct H as (h0 & r0 & H0 & H & ->).
  apply run_keeps with (k := 4) in H0; [|not_in_groups].
  apply in_run_seq in H. destruct H as (h1 & r1 & H1 & H & ->).
  apply run_keeps with (k := 4) in H1; [|not_in_groups].
  apply in_run_seq in H. destruct H as (h2 & r2 & H2 & H & ->).
  apply run_keeps with (k := 4) in H2; [|not_in_groups].
  apply in_run_seq in H. destruct H as (h4 & r4 & H4 & H & ->).
  apply run_keeps with (k := 4) in H; [|not_in_groups].
  cbn [caps]. rewrite H.
  apply in_run_opt in H4. destruct H4 as [->|(g & Hg & ->)]; cbn [caps].
  - left. rewrite H2, H1, H0. reflexivity.
  - apply in_run_group in Hg. destruct Hg as (g' & Hg' & ->). cbn [caps].
    apply in_run_meridiem in Hg'. unfold setCapture. cbn [Nat.eqb].
    destruct Hg' as [->| ->]; auto.
Qed.

Lemma in_run_clock (n : nat) (s : string) (c : captures) (h : hit) :
  In h (run whole (RGroup n (RRep 3 (Some 4) digit)) s c) ->
  exists t, caps h n = Some t /\ clockDigits t.
Proof.
  intros H. apply in_run_group in H. destruct H as (g & Hg & ->).
  cbn [caps]. unfold setCapture. rewrite Nat.eqb_refl.
  exists (text g). split; [reflexivity|].
  apply run_rep_chars in Hg. destruct Hg as (Hall & Hlo & Hhi).
  specialize (Hhi 4 eq_refl). split; [assumption|lia].
Qed.

Lemma formatA_groups (s : string) (h : hit) :
  In h (run whole formatA s noCaptures) ->
  exists t1 t2,
    caps h 1 = Some t1 /\ caps h 2 = Some t2 /\ clockDigits t1 /\ clockDigits t2.
Proof.
  unfold formatA. cbn [seq]. intros H.
  apply in_run_seq in H. destruct H as (h0 & r0 & _ & H & ->).
  apply in_run_seq in H. destruct H as (h1 & r1 & H1 & H & ->).
  apply in_run_clock in H1. destruct H1 as (t1 & E1 & D1).
  apply in_run_seq in H. destruct H as (h2 & r2 & H2 & H & ->).
  apply run_keeps with (k := 1) in H2; [|not_in_groups].
  apply in_run_seq in H. destruct H as (h3 & r3 & H3 & H & ->).
  pose proof (run_keeps _ _ _ _ 1 H3 ltac:(not_in_groups)) as F3.
  apply in_run_clock in H3. destruct H3 as (t2 & E2 & D2).
  pose proof (run_keeps _ _ _ _ 1 H ltac:(not_in_groups)) as F4.
  apply run_keeps with (k := 2) in H; [|not_in_groups].
  cbn [caps]. exists t1, t2. rewrite F4, F3, H2, H. auto.
Qed.

End TimeFormats.

Section TimeRanges.

Lemma exec_in (r : regex) (s : string) (h : hit) :
  exec r s = Some h -> exists s', In h (run s r s' noCaptures).
Proof. apply searchFrom_in. Qed.

(** Hours and minutes read from a padded group of Format A. *)
Lemma clock_fields (t : string) :
  clockDigits t ->
  exists hh mm,
    parseInt (Some (jsSubstring 0 2 (padStart0 4 t))) = ofZ hh /\
    parseInt (Some (jsSubstring 2 4 (padStart0 4 t))) = ofZ mm /\
    0 <= hh <= 99 /\ 0 <= mm <= 99.
Proof.
  intros [Hall Hlen].
  destruct t as [|a [|b [|c [|d [|e t]]]]]; cbn [length] in Hlen; try lia;
    cbn [allChars] in Hall;
    repeat (apply andb_true_iff in Hall; destruct Hall as [? Hall]).
  - destruct (parseInt_two_digits "0" a eq_refl H) as (hh & Eh & Hh).
    destruct (parseInt_two_digits b c H0 H1) as (mm & Em & Hm).
    exists hh, mm. auto.
  - destruct (parseInt_two_digits a b H H0) as (hh & Eh & Hh).
    destruct (parseInt_two_digits c d H1 H2) as (mm & Em & Hm).
    exists hh, mm. auto.
Qed.

Lemma fromFormatA_fields (cleaned : string) (m : hit) :
  exec formatA cleaned = Some m ->
  exists hs ms he me,
    fromFormatA m = Ok {| startMin := ofZ (hs * 60 + ms); endMin := ofZ (he * 60 + me) |} /\
    0 <= hs <= 99 /\ 0 <= ms <= 99 /\ 0 <= he <= 99 /\ 0 <= me <= 99.
Proof.
  intros H. apply exec_in in H. destruct H as (s' & H).
  apply formatA_groups in H. destruct H as (t1 & t2 & E1 & E2 & D1 & D2).
  destruct (clock_fields t1 D1) as (hs & ms & Ehs & Ems & Hhs & Hms).
  destruct (clock_fields t2 D2) as (he & me & Ehe & Eme & Hhe & Hme).
  exists hs, ms, he, me. unfold fromFormatA. rewrite E1, E2. cbn [receiver bind].
  rewrite Ehs, Ems, Ehe, Eme. autorewrite with ofZ. auto.
Qed.

End TimeRanges.

(** ** The characters of a match *)

Section MatchedCharacters.

Local Open Scope nat_scope.

Variable whole : string.

Lemma allChars_append (A : ascii -> bool) (a b : string) :
  allChars A (a ++ b) = allChars A a && allChars A b.
Proof.
  induction a as [|x a IH]; cbn [append allChars]; [reflexivity|].
  rewrite IH, andb_assoc. reflexivity.
Qed.

Lemma rep_within (A : ascii -> bool) (m : string -> captures -> list hit) :
  (forall s c h, In h (m s c) -> allChars A (text h) = true) ->
  forall fuel lo hi s c h,
    In h (rep m lo hi fuel s c) -> allChars A (text h) = true.
Proof.
  intros Hm. induction fuel as [|fuel IH]; intros lo hi s c h H;
    apply in_rep in H;
    destruct H as [[_ ->]|(fuel' & h1 & h2 & Ef & _ & Hin1 & _ & Hin2 & ->)];
    try reflexivity; try discriminate.
  injection Ef as <-. cbn [text].
  rewrite allChars_append, (Hm _ _ _ Hin1), (IH _ _ _ _ _ Hin2). reflexivity.
Qed.

Lemma run_within (A : ascii -> bool) (r : regex) :
  charsWithin A r ->
  forall s c h, In h (run whole r s c) -> allChars A (text h) = true.
Proof.
  induction r as [|p|a IHa b IHb|a IHa b IHb|lo hi a IHa|n a IHa| |];
    cbn [charsWithin]; intros HA s c h H.
  - destruct H as [<-|[]]. reflexivity.
  - apply in_run_char in H. destruct H as (x & s' & _ & Hp & ->).
    cbn [text allChars]. rewrite (HA x Hp). reflexivity.
  - apply in_run_seq in H. destruct H as (h1 & h2 & H1 & H2 & ->). cbn [text].
    destruct HA as [Ha Hb].
    rewrite allChars_append, (IHa Ha _ _ _ H1), (IHb Hb _ _ _ H2). reflexivity.
  - cbn [run] in H. apply in_app_or in H. destruct HA as [Ha Hb].
    destruct H as [H|H]; [apply (IHa Ha _ _ _ H)|apply (IHb Hb _ _ _ H)].
  - cbn [run] in H. revert H. apply rep_within.
    intros s' c' h' H'. apply (IHa HA _ _ _ H').
  - apply in_run_group in H. destruct H as (h1 & H1 & ->). apply (IHa HA _ _ _ H1).
  - cbn [run] in H. destruct (length s =? length whole); [|contradiction].
    destruct H as [<-|[]]. reflexivity.
  - cbn [run] in H. destruct s; [|contradiction].
    destruct H as [<-|[]]. reflexivity.
Qed.

Lemma run_at_bol (r : regex) :
  startsAtBol r ->
  forall s c h, In h (run whole r s c) -> length s = length whole.
Proof.
  induction r as [|p|a IHa b IHb|a IHa b IHb|lo hi a IHa|n a IHa| |];
    cbn [startsAtBol]; intros Hr s c h H; try contradiction.
  - apply in_run_seq in H. destruct H as (h1 & h2 & H1 & _ & _).
    apply (IHa Hr _ _ _ H1).
  - cbn [run] in H. destruct (Nat.eqb_spec (length s) (length whole)); [assumption|contradiction].
Qed.

Lemma run_at_eol (r : regex) :
  endsAtEol r -> forall s c h, In h (run whole r s c) -> rest h = "".
Proof.
  induction r as [|p|a IHa b IHb|a IHa b IHb|lo hi a IHa|n a IHa| |];
    cbn [endsAtEol]; intros Hr s c h H; try contradiction.
  - apply in_run_seq in H. destruct H as (h1 & h2 & _ & H2 & ->).
    apply (IHb Hr _ _ _ H2).
  - cbn [run] in H. destruct s; [|contradiction]. destruct H as [<-|[]]. reflexivity.
Qed.

Lemma searchFrom_suffix (r : regex) (s : string) (h : hit) :
  searchFrom whole r s = Some h ->
  exists skipped s', s = skipped ++ s' /\ In h (run whole r s' noCaptures).
Proof.
  induction s as [|x s IH]; cbn [searchFrom].
  - destruct (run whole r "" noCaptures) as [|h0 l] eqn:E; [discriminate|].
    intros [= <-]. exists "", "". rewrite E. split; [reflexivity|left; reflexivity].
  - destruct (run whole r (String x s) noCaptures) as [|h0 l] eqn:E.
    + intros H. destruct (IH H) as (skipped & s' & -> & Hin).
      exists (String x skipped), s'. split; [reflexivity|exact Hin].
    + intros [= <-]. exists "", (String x s). rewrite E.
      split; [reflexivity|left; reflexivity].
Qed.

End MatchedCharacters.

Section AnchoredMatch.

Lemma append_empty_r (s : string) : s ++ "" = s.
Proof. induction s as [|x s IH]; cbn [append]; [reflexivity|]. rewrite IH. reflexivity. Qed.

(** A pattern anchored at both ends matches the whole text or nothing. *)
Lemma exec_anchored (A : ascii -> bool) (r : regex) (s : string) (h : hit) :
  startsAtBol r -> endsAtEol r -> charsWithin A r ->
  exec r s = Some h -> text h = s /\ allChars A s = true.
Proof.
  intros Hb He HA H. unfold exec in H.
  apply searchFrom_suffix in H. destruct H as (skipped & s' & Es & Hin).
  pose proof (run_at_bol s r Hb _ _ _ Hin) as Hlen.
  pose proof (run_at_eol s r He _ _ _ Hin) as Hrest.
  pose proof (run_splits s r _ _ _ Hin) as Hsplit.
  pose proof (run_within s A r HA _ _ _ Hin) as Hall.
  rewrite Hrest, append_empty_r in Hsplit.
  assert (skipped = "").
  { rewrite Es, append_length in Hlen. destruct skipped; [reflexivity|].
    cbn [length] in Hlen. lia. }
  subst skipped. cbn [append] in Es. subst s'. rewrite <- Hsplit in Hall. auto.
Qed.

Lemma formatB_chars (s : string) (m : hit) :
  exec formatB s = Some m -> allChars clockChar s = true.
Proof.
  intros H. apply (exec_anchored clockChar formatB s m); [exact I|exact I| |exact H].
  unfold formatB, opt, digit. cbn [seq lit charsWithin]. unfold chr.
  cbn [charsWithin].
  repeat split; intros x Hx; unfold clockChar;
    solve [ rewrite Hx; reflexivity
          | apply Ascii.eqb_eq in Hx; subst x; reflexivity ].
Qed.

Lemma allChars_occurs (A : ascii -> bool) (x : ascii) (s : string) :
  allChars A s = true -> occurs x s = true -> A x = true.
Proof.
  induction s as [|y s IH]; cbn [allChars occurs]; [discriminate|].
  intros Hall Hocc. apply andb_true_iff in Hall. destruct Hall as [Hy Hs].
  apply orb_true_iff in Hocc. destruct Hocc as [E|Hocc]; [|auto].
  apply Ascii.eqb_eq in E. subst y. exact Hy.
Qed.

Lemma prefix_occurs (x : ascii) (sub : string) :
  forall s, prefix sub s = true -> occurs x sub = true -> occurs x s = true.
Proof.
  induction sub as [|y sub IH]; intros s Hp Ho; [discriminate Ho|].
  destruct s as [|z s]; [discriminate Hp|]. cbn [prefix] in Hp.
  destruct (ascii_dec y z) as [->|_]; [|discriminate Hp].
  cbn [occurs] in *. apply orb_true_iff in Ho. apply orb_true_iff.
  destruct Ho as [E|Ho]; [left; exact E|right; apply (IH s Hp Ho)].
Qed.

Lemma includes_occurs (x : ascii) (sub s : string) :
  includes sub s = true -> occurs x sub = true -> occurs x s = true.
Proof.
  induction s as [|z s IH]; cbn [includes]; intros Hi Ho.
  - rewrite orb_false_r in Hi. apply (prefix_occurs x sub _ Hi Ho).
  - apply orb_true_iff in Hi. destruct Hi as [Hp|Hi].
    + apply (prefix_occurs x sub _ Hp Ho).
    + cbn [occurs]. rewrite (IH Hi Ho). apply orb_true_r.
Qed.

(** An upper-case letter of the upper-cased text is its lower-case letter
    in the cleaned text. *)
Lemma occurs_cleaned (upper lower : ascii) (s : string) :
  (forall c, Ascii.eqb upper (upperChar c) = true ->
             Ascii.eqb lower (lowerChar c) = true) ->
  isSpace lower = false ->
  occurs upper (toUpperCase s) = true -> occurs lower (cleanedOf s) = true.
Proof.
  intros Hc Hsp. unfold cleanedOf, toUpperCase, toLowerCase.
  induction s as [|c s IH]; cbn [mapChars occurs removeSpaces]; [trivial|].
  intros H. apply orb_true_iff in H.
  destruct (isSpace (lowerChar c)) eqn:Esp.
  - destruct H as [E|H]; [|auto].
    apply Hc in E. apply Ascii.eqb_eq in E. congruence.
  - cbn [occurs]. apply orb_true_iff.
    destruct H as [E|H]; [left; apply Hc, E|right; auto].
Qed.

Lemma upper_N (c : ascii) :
  Ascii.eqb "N" (upperChar c) = true -> Ascii.eqb "n" (lowerChar c) = true.
Proof. destruct c as [[] [] [] [] [] [] [] []]; vm_compute; trivial. Qed.

Lemma upper_H (c : ascii) :
  Ascii.eqb "H" (upperChar c) = true -> Ascii.eqb "h" (lowerChar c) = true.
Proof. destruct c as [[] [] [] [] [] [] [] []]; vm_compute; trivial. Qed.

(** A text that matches the flexible format does not take the all-day
    rule. *)
Lemma formatB_not_all_day (s : string) :
  exec formatB (cleanedOf s) <> None -> isAllDayText s = false.
Proof.
  intros H. destruct (exec formatB (cleanedOf s)) as [m|] eqn:Em; [|congruence].
  pose proof (formatB_chars _ _ Em) as Hall.
  unfold isAllDayText. apply orb_false_iff. split; [apply orb_false_iff; split|].
  - destruct (String.eqb_spec s "") as [->|_]; [|reflexivity].
    vm_compute in Em. discriminate Em.
  - destruct (includes "ANYTIME" (toUpperCase s)) eqn:E; [|reflexivity].
    apply (includes_occurs "N") in E; [|reflexivity].
    apply (occurs_cleaned "N" "n" s upper_N eq_refl) in E.
    pose proof (allChars_occurs _ _ _ Hall E) as F. vm_compute in F. discriminate F.
  - destruct (includes "24 HR" (toUpperCase s)) eqn:E; [|reflexivity].
    apply (includes_occurs "H") in E; [|reflexivity].
    apply (occurs_cleaned "H" "h" s upper_H eq_refl) in E.
    pose proof (allChars_occurs _ _ _ Hall E) as F. vm_compute in F. discriminate F.
Qed.

End AnchoredMatch.

(** ** [parseDays] *)

Section ParseDays.

Lemma DAY_MAP_range (key : string) (d : Z) :
  lookup DAY_MAP key = Some d -> 0 <= d <= 6.
Proof.
  unfold DAY_MAP. cbn [lookup].
  repeat match goal with
         | |- context [if ?b then _ else _] => destruct b
         end; intros [= <-]; lia.
Qed.

Lemma add_weekdays (ds : list Z) (d : Z) :
  weekdays ds -> 0 <= d <= 6 -> weekdays (add ds d).
Proof.
  unfold weekdays, add. intros Hds Hd. destruct (has ds d); [assumption|].
  apply Forall_app. split; [assumption|]. constructor; [assumption|constructor].
Qed.

Lemma addRange_weekdays (n : nat) :
  forall ds i, weekdays ds -> 0 <= i -> i + Z.of_nat n <= 7 -> weekdays (addRange ds i n).
Proof.
  induction n as [|n IH]; intros ds i Hds Hi Hn; cbn [addRange]; [assumption|].
  apply IH; [apply add_weekdays; [assumption|lia] | lia | lia].
Qed.

(** The loop body never throws: a part with a hyphen has two pieces. *)
Lemma addPart_ok (ds : list Z) (part : string) :
  weekdays ds -> exists ds', addPart ds part = Ok ds' /\ weekdays ds'.
Proof.
  intros Hds. unfold addPart. destruct (includes "-" part) eqn:E.
  - apply splitChar_includes in E. destruct E as (a & b & l & ->).
    cbn [nth_error receiver bind].
    destruct (lookup DAY_MAP (trim a)) as [first|] eqn:Ea; [|eauto].
    destruct (lookup DAY_MAP (trim b)) as [last|] eqn:Eb; [|eauto].
    eexists. split; [reflexivity|].
    apply DAY_MAP_range in Ea. apply DAY_MAP_range in Eb.
    apply addRange_weekdays; [assumption|lia|lia].
  - destruct (lookup DAY_MAP (trim part)) as [d|] eqn:Ed; [|eauto].
    eexists. split; [reflexivity|].
    apply add_weekdays; [assumption|]. apply DAY_MAP_range in Ed. exact Ed.
Qed.

Lemma addParts_ok (parts : list string) :
  forall ds, weekdays ds -> exists ds', addParts ds parts = Ok ds' /\ weekdays ds'.
Proof.
  induction parts as [|part parts IH]; intros ds Hds; cbn [addParts]; [eauto|].
  destruct (addPart_ok ds part Hds) as (ds1 & -> & H1). cbn [bind]. apply IH, H1.
Qed.

Lemma parseDays_ok (str : value) :
  exists r, parseDays str = Ok r /\
            (r = None \/ exists ds, r = Some ds /\ ds <> [] /\ weekdays ds).
Proof.
  destruct str as [| |s|n]; cbn [parseDays]; eauto.
  destruct (s =? "")%string; [eauto|].
  destruct (addParts_ok (split daySeparator (toUpperCase s)) [] (Forall_nil _))
    as (ds & -> & Hds).
  cbn [bind]. destruct ds as [|d ds]; [eauto|].
  eexists. split; [reflexivity|]. right. eexists. repeat split; [discriminate|assumption].
Qed.

Lemma two_pieces_include (part a b : string) (l : list string) :
  splitChar "-" part = a :: b :: l -> includes "-" part = true.
Proof.
  intros E. destruct (includes "-" part) eqn:Ei; [reflexivity|].
  rewrite (splitChar_excludes _ _ Ei) in E. discriminate.
Qed.

Lemma addPart_barren (ds : list Z) (part : string) :
  Barren part -> addPart ds part = Ok ds.
Proof.
  intros [a b l first last E Ea Eb Hlt | a b l E Hnone | Ei Ed]; unfold addPart.
  - rewrite (two_pieces_include _ _ _ _ E), E. cbn [nth_error receiver bind].
    rewrite Ea, Eb. replace (Z.to_nat (last - first + 1)) with O by lia. reflexivity.
  - rewrite (two_pieces_include _ _ _ _ E), E. cbn [nth_error receiver bind].
    destruct Hnone as [-> | ->]; [reflexivity|].
    destruct (lookup DAY_MAP (trim a)); reflexivity.
  - rewrite Ei, Ed. reflexivity.
Qed.

Lemma addParts_barren (parts : list string) (ds : list Z) :
  Forall Barren parts -> addParts ds parts = Ok ds.
Proof.
  induction 1 as [|part parts Hp _ IH]; cbn [addParts]; [reflexivity|].
  rewrite (addPart_barren ds part Hp). exact IH.
Qed.

End ParseDays.

(** ** [parseTimeRange] *)

Section ParseTimeRange.

Lemma intOrNaN_ofZ (z : Z) : intOrNaN (ofZ z).
Proof. right. eauto. Qed.

Lemma intOrNaN_nadd (a b : num) : intOrNaN a -> intOrNaN b -> intOrNaN (nadd a b).
Proof.
  intros [->|[x ->]] [->|[y ->]]; try (left; reflexivity).
  rewrite nadd_ofZ. apply intOrNaN_ofZ.
Qed.

Lemma intOrNaN_nmul (a b : num) : intOrNaN a -> intOrNaN b -> intOrNaN (nmul a b).
Proof.
  intros [->|[x ->]] [->|[y ->]]; try (left; reflexivity).
  rewrite nmul_ofZ. apply intOrNaN_ofZ.
Qed.

Lemma intOrNaN_if (c : bool) (a b : num) :
  intOrNaN a -> intOrNaN b -> intOrNaN (if c then a else b).
Proof. destruct c; auto. Qed.

Lemma fromFormatB_shape (m : hit) : wellShaped (fromFormatB m).
Proof.
  unfold fromFormatB. split; cbn [startMin endMin];
    repeat first [ apply intOrNaN_nadd | apply intOrNaN_nmul | apply intOrNaN_if
                 | apply intOrNaN_ofZ | apply parseInt_shape ].
Qed.

(** The end hour of the flexible format is read from group 4. *)
Lemma fromFormatB_end (m : hit) :
  parseInt (caps m 4%nat) = NaN -> endMin (fromFormatB m) = NaN.
Proof.
  intros E. unfold fromFormatB. cbn [endMin]. rewrite E. cbn [nlt neq].
  rewrite !andb_false_r. reflexivity.
Qed.

Lemma formatB_end_NaN (cleaned : string) (m : hit) :
  exec formatB cleaned = Some m ->
  (caps m 4%nat = None \/ caps m 4%nat = Some "am" \/ caps m 4%nat = Some "pm") /\
  parseInt (caps m 4%nat) = NaN /\ endMin (fromFormatB m) = NaN.
Proof.
  intros H. apply exec_in in H. destruct H as (s' & H).
  apply formatB_group4 in H.
  assert (E : parseInt (caps m 4%nat) = NaN)
    by (destruct H as [->|[->| ->]]; reflexivity).
  auto using fromFormatB_end.
Qed.

Lemma parseTimeRange_ok (str : value) :
  exists r, parseTimeRange str = Ok r /\ forall w, r = Some w -> wellShaped w.
Proof.
  assert (Hall : wellShaped allDay) by (split; apply intOrNaN_ofZ).
  destruct str as [| |s|n]; cbn [parseTimeRange];
    try (eexists; split; [reflexivity|]; intros w [= <-]; exact Hall).
  destruct (isAllDayText s);
    [eexists; split; [reflexivity|]; intros w [= <-]; exact Hall|].
  destruct (exec formatA (cleanedOf s)) as [m|] eqn:EA.
  - destruct (fromFormatA_fields _ _ EA) as (hs & ms & he & me & -> & _).
    cbn [bind]. eexists. split; [reflexivity|].
    intros w [= <-]. split; apply intOrNaN_ofZ.
  - destruct (exec formatB (cleanedOf s)) as [m|] eqn:EB.
    + eexists. split; [reflexivity|]. intros w [= <-]. apply fromFormatB_shape.
    + eexists. split; [reflexivity|]. discriminate.
Qed.

End ParseTimeRange.

(** ** Comparisons that involve [NaN] *)

Section NaNFacts.

Lemma nle_NaN_r (a : num) : nle a NaN = false.
Proof. destruct a; reflexivity. Qed.

Lemma nlt_NaN_r (a : num) : nlt a NaN = false.
Proof. destruct a; reflexivity. Qed.

Lemma neq_NaN_r (a : num) : neq a NaN = false.
Proof. destruct a; reflexivity. Qed.

Lemma nmax_NaN_r (a : num) : nmax a NaN = NaN.
Proof. destruct a; reflexivity. Qed.

Lemma nmin_NaN_r (a : num) : nmin a NaN = NaN.
Proof. destruct a; reflexivity. Qed.

End NaNFacts.

#[local] Hint Rewrite nle_NaN_r nlt_NaN_r neq_NaN_r nmax_NaN_r nmin_NaN_r
  andb_false_r : ofZ.

(** ** The overlap of a query with a time window *)

Section Overlap.

(** With a window made of integers or [NaN] the overlap is a number of
    minutes, never negative. *)
Lemma overlapMinutes_shape (regTime : option TimeRange) (us ue : Z) :
  (forall w, regTime = Some w -> wellShaped w) -> us <= ue ->
  exists o, overlapMinutes regTime (ofZ us) (ofZ ue) (ofZ (ue - us)) = ofZ o /\ 0 <= o.
Proof.
  intros Hw Hle. destruct regTime as [[s e]|]; [|exists (ue - us); split; [reflexivity|lia]].
  destruct (Hw _ eq_refl) as [Hs He]. cbn [startMin endMin] in Hs, He.
  unfold overlapMinutes. cbn [startMin endMin].
  destruct Hs as [->|[s' ->]], He as [->|[e' ->]]; cbn [neq nle nmax nmin nlt andb];
    split_ifs; eexists; (split; [reflexivity|lia]).
Qed.

(** A window whose end is [NaN] overlaps nothing. *)
Lemma overlapMinutes_NaN_end (st us ue dur : num) :
  overlapMinutes (Some {| startMin := st; endMin := NaN |}) us ue dur = ofZ 0.
Proof.
  unfold overlapMinutes. cbn [startMin endMin]. autorewrite with ofZ.
  cbn [nle nmin nlt]. autorewrite with ofZ. reflexivity.
Qed.

End Overlap.

(** ** The hour limit *)

Section HourLimit.

Lemma firstIntegerOf_nonneg (s : string) (n : Z) :
  firstIntegerOf s = Some n -> 0 <= n.
Proof.
  induction s as [|c s IH]; cbn [firstIntegerOf takeDigits]; [discriminate|].
  destruct (isDigit c) eqn:E; [|exact IH].
  intros [= <-].
  apply digitsVal_nonneg; [apply takeDigits_digits | apply (digitVal_range c E)].
Qed.

(** A greedy run of digits takes every leading digit first. *)
Lemma rep_digits_head (whole : string) :
  forall fuel s c lo,
    (length s < fuel)%nat -> (lo <= length (takeDigits s))%nat ->
    exists h tl,
      rep (fun s' c' => run whole digit s' (clearCaptures [] c')) lo None fuel s c
      = h :: tl /\ text h = takeDigits s.
Proof.
  set (m := fun s' c' => run whole digit s' (clearCaptures [] c')).
  induction fuel as [|fuel IH]; intros s c lo Hf Hlo; [lia|].
  cbn [rep]. destruct s as [|x s1].
  - cbn [takeDigits length] in Hlo. replace lo with O by lia.
    change (m "" c) with (@nil hit). cbn [flat_map app]. eauto.
  - change (m (String x s1) c)
      with (if isDigit x then [mkHit (String x "") s1 (clearCaptures [] c)] else []).
    cbn [takeDigits length] in *. destruct (isDigit x) eqn:Ex.
    + cbn [flat_map text rest caps app option_map].
      destruct (IH s1 (clearCaptures [] c) (pred lo)) as (h2 & tl2 & E2 & T2);
        [lia | cbn [length] in Hlo; lia |].
      rewrite E2. cbn [map app text append]. rewrite T2. eauto.
    + cbn [length] in Hlo. replace lo with O by lia. cbn [flat_map app]. eauto.
Qed.

Lemma run_firstInteger_digit (whole : string) (x : ascii) (s : string) :
  isDigit x = true ->
  exists h tl,
    run whole firstInteger (String x s) noCaptures = h :: tl /\
    caps h 1%nat = Some (takeDigits (String x s)).
Proof.
  intros Hx.
  change (run whole firstInteger (String x s) noCaptures)
    with (map (fun h => mkHit (text h) (rest h) (setCapture 1 (Some (text h)) (caps h)))
              (rep (fun s' c' => run whole digit s' (clearCaptures [] c')) 1 None
                   (S (length (String x s))) (String x s) noCaptures)).
  destruct (rep_digits_head whole (S (length (String x s))) (String x s) noCaptures 1)
    as (h & tl & E & T).
  - lia.
  - cbn [takeDigits]. rewrite Hx. cbn [length]. lia.
  - rewrite E. cbn [map].
    eexists. eexists. split; [reflexivity|]. cbn [caps]. unfold setCapture.
    cbn [Nat.eqb]. rewrite T. reflexivity.
Qed.

Lemma run_firstInteger_other (whole : string) (x : ascii) (s : string) :
  isDigit x = false -> run whole firstInteger (String x s) noCaptures = [].
Proof.
  intros Hx. unfold firstInteger, plus, digit. cbn. rewrite Hx. reflexivity.
Qed.

Lemma searchFrom_firstInteger (whole s : string) :
  match searchFrom whole firstInteger s with
  | Some m => exists n, firstIntegerOf s = Some n /\ parseInt (caps m 1%nat) = ofZ n
  | None => firstIntegerOf s = None
  end.
Proof.
  induction s as [|x s IH]; [reflexivity|].
  cbn [searchFrom firstIntegerOf]. destruct (isDigit x) eqn:Ex.
  - destruct (run_firstInteger_digit whole x s Ex) as (h & tl & -> & E).
    eexists. split; [reflexivity|]. rewrite E. cbn [takeDigits]. rewrite Ex.
    apply parseIntStr_digits. cbn [allChars]. rewrite Ex, takeDigits_digits. reflexivity.
  - rewrite (run_firstInteger_other whole x s Ex). exact IH.
Qed.

(** The limit read from a text is sixty times its first integer. *)
Lemma timeLimitMinutes_text (props : Props) (s : string) :
  orElse (hrlimit props) (hours props) = VStr s ->
  timeLimitMinutes props =
    if (s =? "")%string then None
    else option_map (fun n => ofZ (n * 60)) (firstIntegerOf s).
Proof.
  intros E. unfold timeLimitMinutes. rewrite E. cbn [truthy].
  destruct (s =? "")%string; [reflexivity|]. cbn [negb].
  pose proof (searchFrom_firstInteger s s) as H. unfold exec.
  destruct (searchFrom s firstInteger s) as [m|].
  - destruct H as (n & -> & ->). cbn [option_map]. rewrite nmul_ofZ. reflexivity.
  - rewrite H. reflexivity.
Qed.

End HourLimit.

(** ** Coverage *)

Section Coverage.

Lemma ofZ_zero_not_divisor (d : Z) : 0 < d -> Qeq_bool (inject_Z d) 0 = false.
Proof.
  intros Hd. destruct (Qeq_bool (inject_Z d) 0) eqn:E; [|reflexivity].
  apply Qeq_bool_eq in E. unfold Qeq, inject_Z in E. simpl in E. lia.
Qed.

(** A ratio of free minutes is never above [1]. *)
Lemma nmin_one_ratio (d o : Z) :
  0 < d -> 0 <= o ->
  nmin (ofZ 1) (ndiv (ofZ (d - o)) (ofZ d)) = ndiv (ofZ (d - o)) (ofZ d).
Proof.
  intros Hd Ho. destruct (Z.eq_dec o 0) as [->|Hne].
  - rewrite Z.sub_0_r, ndiv_same by assumption. reflexivity.
  - unfold ndiv, ofZ. rewrite (ofZ_zero_not_divisor d Hd).
    unfold nmin, nle.
    destruct (Qle_bool (inject_Z 1) (Qred (inject_Z (d - o) / inject_Z d))) eqn:E;
      [|reflexivity].
    exfalso. apply Qle_bool_iff in E. rewrite Qred_correct in E.
    destruct d as [|p|p]; try lia.
    remember (Z.pos p - o) as a eqn:Ea.
    unfold Qle, Qdiv, Qmult, Qinv, inject_Z in E. cbn in E. lia.
Qed.

Variable props : Props.
Variables start end_ : Date.

(** [calculateCoverage] on a query of positive length, branch by branch. *)
Lemma calculateCoverage_cases (activeDays : option (list Z))
    (regTime : option TimeRange) (text : string) (o : Z) :
  parseDays (days props) = Ok activeDays ->
  parseTimeRange (hours props) = Ok regTime ->
  regulationText props = Ok text ->
  minutes start < minutes end_ ->
  overlapMinutes regTime (ofZ (minutes start)) (ofZ (minutes end_))
                 (ofZ (minutes end_ - minutes start)) = ofZ o ->
  let duration := minutes end_ - minutes start in
  calculateCoverage props start end_ =
    if negb (regulationAppliesToday activeDays (getDay start)) then Ok (ofZ 1)
    else if (o =? 0)%Z then Ok (ofZ 1)
    else if test noParkingPattern text
         then Ok (ndiv (ofZ (duration - o)) (ofZ duration))
    else match timeLimitMinutes props with
         | Some limit =>
             if truthy_num limit && (0 <? o)%Z
             then Ok (nmin (ofZ 1)
                        (ndiv (nadd (ofZ (duration - o)) (nmin limit (ofZ o)))
                              (ofZ duration)))
             else Ok (ndiv (ofZ (duration - o)) (ofZ duration))
         | None => Ok (ndiv (ofZ (duration - o)) (ofZ duration))
         end.
Proof.
  intros Ed Et Er Hlt Eo duration. unfold calculateCoverage.
  rewrite Ed, Et, Er. cbn [bind]. unfold minuteOfDay.
  fold (minutes start). fold (minutes end_).
  rewrite nsub_ofZ, nle_ofZ, Eo.
  replace (minutes end_ - minutes start <=? 0)%Z with false by lia.
  unfold ngt. rewrite neq_ofZ, nsub_ofZ, nlt_ofZ. reflexivity.
Qed.

End Coverage.

(** ** Statements about the exported functions *)

Lemma has_In (ds : list Z) (x : Z) : has ds x = true <-> In x ds.
Proof.
  unfold has. rewrite existsb_exists. split.
  - intros (y & Hy & E). apply Z.eqb_eq in E. subst y. exact Hy.
  - intros H. exists x. split; [exact H|apply Z.eqb_refl].
Qed.

Lemma minutes_range (d : Date) : validDate d -> 0 <= minutes d <= 1439.
Proof. unfold validDate, minutes. lia. Qed.

(** C2: the calibration examples of the two parsers hold: "M-F" is
    {1,2,3,4,5}, "SA,SU" is {6,0} (in insertion order), the empty string
    and [null] give the unrestricted result [null]; "0900-1800" is
    (540, 1080), "ANYTIME" the all-day window (0, 1440), and "garbage" is
    unparseable ([null]). *)
Theorem parser_calibration :
  parseDays (VStr "M-F") = Ok (Some [1; 2; 3; 4; 5]) /\
  parseDays (VStr "SA,SU") = Ok (Some [6; 0]) /\
  parseDays (VStr "") = Ok None /\
  parseDays VNull = Ok None /\
  parseTimeRange (VStr "0900-1800")
    = Ok (Some {| startMin := ofZ 540; endMin := ofZ 1080 |}) /\
  parseTimeRange (VStr "ANYTIME")
    = Ok (Some {| startMin := ofZ 0; endMin := ofZ 1440 |}) /\
  parseTimeRange (VStr "garbage") = Ok None.
Proof. repeat split; vm_compute; reflexivity. Qed.

(** C1 (defect in the code): on "8am-6pm" [parseTimeRange] returns the start
    minute 480 but the end minute [NaN], not the window (480, 1080) that the
    documented pm/am conversion gives: the destructuring of the match array
    reads the end hour from the start side's meridiem group. *)
Theorem parseTimeRange_8am_6pm :
  parseTimeRange (VStr "8am-6pm") = Ok (Some {| startMin := ofZ 480; endMin := NaN |}).
Proof. vm_compute. reflexivity. Qed.

Section Evaluators.

Variable props : Props.

(** [calculateCoverage] throws exactly when [regulationText] does. *)
Lemma calculateCoverage_ok (start end_ : Date) (text : string) :
  regulationText props = Ok text ->
  exists ratio, calculateCoverage props start end_ = Ok ratio.
Proof.
  intros Er. unfold calculateCoverage.
  destruct (parseDays_ok (days props)) as (ad & -> & _).
  destruct (parseTimeRange_ok (hours props)) as (rt & -> & _).
  rewrite Er. cbn [bind].
  repeat match goal with
         | |- context [if ?b then _ else _] => destruct b
         | |- context [match ?x with Some _ => _ | None => _ end] => destruct x
         end; eauto.
Qed.

Lemma isActiveAt_ok (date : Date) : exists b, isActiveAt props date = Ok b.
Proof.
  unfold isActiveAt.
  destruct (parseDays_ok (days props)) as (ad & -> & _).
  destruct (parseTimeRange_ok (hours props)) as (rt & -> & _).
  cbn [bind]. eauto.
Qed.

Lemma intersectsRange_ok (start end_ : Date) :
  exists b, intersectsRange props start end_ = Ok b.
Proof.
  unfold intersectsRange.
  destruct (parseDays_ok (days props)) as (ad & -> & _).
  destruct (parseTimeRange_ok (hours props)) as (rt & -> & _).
  cbn [bind].
  repeat match goal with
         | |- context [if ?b then _ else _] => destruct b
         | |- context [match ?x with Some _ => _ | None => _ end] => destruct x
         end; eauto.
Qed.

End Evaluators.

(** Every window the parser returns is made of integers, or has [NaN] for
    its end. *)
Lemma parseTimeRange_windows (str : value) (w : TimeRange) :
  parseTimeRange str = Ok (Some w) ->
  (exists s e, w = {| startMin := ofZ s; endMin := ofZ e |}) \/ endMin w = NaN.
Proof.
  destruct str as [| |s|n]; cbn [parseTimeRange];
    try (intros [= <-]; left; exists 0, 1440; reflexivity).
  destruct (isAllDayText s); [intros [= <-]; left; exists 0, 1440; reflexivity|].
  destruct (exec formatA (cleanedOf s)) as [m|] eqn:EA.
  - destruct (fromFormatA_fields _ _ EA) as (hs & ms & he & me & -> & _).
    cbn [bind]. intros [= <-]. left. eauto.
  - destruct (exec formatB (cleanedOf s)) as [m|] eqn:EB; [|discriminate].
    intros [= <-]. right. apply (formatB_end_NaN _ _ EB).
Qed.

(** C9 (defect in the code): a record whose [regulation] is a non-zero
    number makes [calculateCoverage] throw a [TypeError] before it returns
    anything.  Everything else is as the claim says: the two parsers,
    [isActiveAt] and [intersectsRange] return on every record, values that
    are not texts degrade to the unrestricted day set and the all-day
    window, and [calculateCoverage] returns exactly when the regulation is a
    text or a falsy value. *)
Theorem calculateCoverage_numeric_regulation :
  calculateCoverage numericRegulation (mkDate 1 9 0) (mkDate 1 10 0)
    = Throw (TypeError "toLowerCase is not a function") /\
  (forall v, exists r, parseDays v = Ok r) /\
  (forall v, exists r, parseTimeRange v = Ok r) /\
  (forall v, (forall s, v <> VStr s) ->
             parseDays v = Ok None /\ parseTimeRange v = Ok (Some allDay)) /\
  (forall props date, exists b, isActiveAt props date = Ok b) /\
  (forall props start end_, exists b, intersectsRange props start end_ = Ok b) /\
  (forall props start end_,
      (exists ratio, calculateCoverage props start end_ = Ok ratio) <->
      (exists text, regulationText props = Ok text)).
Proof.
  split; [vm_compute; reflexivity|].
  split; [intros v; destruct (parseDays_ok v) as (r & E & _); eauto|].
  split; [intros v; destruct (parseTimeRange_ok v) as (r & E & _); eauto|].
  split; [intros [| |s|n] Hs; try (split; reflexivity); destruct (Hs s eq_refl)|].
  split; [apply isActiveAt_ok|]. split; [apply intersectsRange_ok|].
  intros props start end_. split.
  - intros (ratio & E). unfold calculateCoverage in E.
    destruct (parseDays_ok (days props)) as (ad & Ed & _).
    destruct (parseTimeRange_ok (hours props)) as (rt & Et & _).
    rewrite Ed, Et in E. cbn [bind] in E.
    destruct (regulationText props) as [text|e]; [eauto|discriminate E].
  - intros (text & E). apply (calculateCoverage_ok props start end_ text E).
Qed.

(** C3: [isActiveAt] on a window of integer minutes (start, end).  Without
    a day set the result is true iff minute >= start or minute < end when
    end <= start (overnight), and iff start <= minute < end otherwise.  With
    a day set and an overnight window it is true iff the previous weekday is
    in the set and minute < end, or the weekday of the date is in the set
    and minute >= start (with a same-day window: iff the weekday is in the
    set and start <= minute < end).  The window (1320, 360) without day
    restriction is active at minute 0 and at minute 1380, and inactive at
    minute 600. *)
Theorem isActiveAt_overnight (props : Props) (date : Date)
    (activeDays : option (list Z)) (s e : Z) :
  validDate date ->
  parseDays (days props) = Ok activeDays ->
  parseTimeRange (hours props) = Ok (Some {| startMin := ofZ s; endMin := ofZ e |}) ->
  (exists active,
      isActiveAt props date = Ok active /\
      match activeDays with
      | None =>
          (e <= s -> (active = true <-> minutes date >= s \/ minutes date < e)) /\
          (s < e -> (active = true <-> s <= minutes date < e))
      | Some daySet =>
          (e <= s ->
           (active = true <->
            (In ((getDay date + 6) mod 7) daySet /\ minutes date < e) \/
            (In (getDay date) daySet /\ minutes date >= s))) /\
          (s < e ->
           (active = true <-> In (getDay date) daySet /\ s <= minutes date < e))
      end) /\
  (forall day,
      parseTimeRange (hours nightRule)
        = Ok (Some {| startMin := ofZ 1320; endMin := ofZ 360 |}) /\
      isActiveAt nightRule (mkDate day 0 0) = Ok true /\
      isActiveAt nightRule (mkDate day 23 0) = Ok true /\
      isActiveAt nightRule (mkDate day 10 0) = Ok false).
Proof.
  intros Hv Ed Et. split.
  - unfold isActiveAt. rewrite Ed, Et. cbn [bind]. eexists. split; [reflexivity|].
    unfold activeAt, minuteOfDay, nge. cbn [startMin endMin]. fold (minutes date).
    autorewrite with ofZ.
    destruct activeDays as [daySet|].
    + replace (Z.rem (getDay date - 1 + 7) 7) with ((getDay date + 6) mod 7)
        by (rewrite Z.rem_mod_nonneg; [f_equal; lia | unfold validDate in Hv; lia | lia]).
      rewrite <- !has_In. split; intros Hes.
      * replace (e <=? s)%Z with true by lia.
        destruct (has daySet ((getDay date + 6) mod 7)), (has daySet (getDay date)),
          (Z.ltb_spec (minutes date) e), (Z.leb_spec s (minutes date));
          cbn; intuition (lia || congruence).
      * replace (e <=? s)%Z with false by lia.
        destruct (has daySet (getDay date)),
          (Z.ltb_spec (minutes date) e), (Z.leb_spec s (minutes date));
          cbn; intuition (lia || congruence).
    + split; intros Hes.
      * replace (e <=? s)%Z with true by lia.
        destruct (Z.ltb_spec (minutes date) e), (Z.leb_spec s (minutes date));
          cbn; intuition (lia || congruence).
      * replace (e <=? s)%Z with false by lia.
        destruct (Z.ltb_spec (minutes date) e), (Z.leb_spec s (minutes date));
          cbn; intuition (lia || congruence).
  - intros day. repeat split; vm_compute; reflexivity.
Qed.

Lemma isActiveAt_overnight_witness :
  validDate (mkDate 3 23 0) /\
  parseDays (days nightRule) = Ok None /\
  parseTimeRange (hours nightRule)
    = Ok (Some {| startMin := ofZ 1320; endMin := ofZ 360 |}) /\
  exists active,
    isActiveAt nightRule (mkDate 3 23 0) = Ok active /\
    (active = true <-> minutes (mkDate 3 23 0) >= 1320 \/ minutes (mkDate 3 23 0) < 360).
Proof.
  assert (Hv : validDate (mkDate 3 23 0)) by (unfold validDate; simpl; lia).
  assert (Ed : parseDays (days nightRule) = Ok None) by reflexivity.
  assert (Et : parseTimeRange (hours nightRule)
               = Ok (Some {| startMin := ofZ 1320; endMin := ofZ 360 |}))
    by (vm_compute; reflexivity).
  split; [exact Hv|]. split; [exact Ed|]. split; [exact Et|].
  destruct (isActiveAt_overnight nightRule (mkDate 3 23 0) None 1320 360 Hv Ed Et)
    as [(active & Ea & Hnight & _) _].
  exists active. split; [exact Ea|]. apply Hnight. lia.
Defined.

Section OverlapValue.

(** The overlap in closed form, for a window of integer minutes and a query
    inside one day. *)
Lemma overlapMinutes_value (s e us ue o : Z) :
  0 <= us -> us <= ue -> ue <= 1440 ->
  overlapMinutes (Some {| startMin := ofZ s; endMin := ofZ e |})
                 (ofZ us) (ofZ ue) (ofZ (ue - us)) = ofZ o ->
  (s < e -> o = Z.max 0 (Z.min e ue - Z.max s us)) /\
  (e <= s -> o = Z.max 0 (Z.min 1440 ue - Z.max s us)
                 + Z.max 0 (Z.min e ue - Z.max 0 us)).
Proof.
  intros H0 Hle H1 Eo. unfold overlapMinutes in Eo. cbn [startMin endMin] in Eo.
  split_ifs_in Eo; apply ofZ_inj in Eo; lia.
Qed.

(** No intersection means no overlap. *)
Lemma no_intersection_no_overlap (rt : TimeRange) (us ue o : Z) :
  wellShaped rt -> 0 <= us -> us < ue -> ue <= 1440 ->
  (if nle (endMin rt) (startMin rt)
   then nlt (nmax (startMin rt) (ofZ us)) (nmin (ofZ 1440) (ofZ ue))
        || nlt (nmax (ofZ 0) (ofZ us)) (nmin (endMin rt) (ofZ ue))
   else nlt (nmax (startMin rt) (ofZ us)) (nmin (endMin rt) (ofZ ue))) = false ->
  overlapMinutes (Some rt) (ofZ us) (ofZ ue) (ofZ (ue - us)) = ofZ o ->
  o = 0.
Proof.
  intros [Hs He] H0 Hlt H1 Hno Eo. destruct rt as [s e].
  unfold overlapMinutes in Eo. cbn [startMin endMin] in *.
  destruct Hs as [->|[s' ->]], He as [->|[e' ->]];
    cbn [neq nle nmax nmin nlt andb orb] in Hno, Eo;
    split_ifs_in Hno; split_ifs_in Eo; apply ofZ_inj in Eo; lia.
Qed.

End OverlapValue.

(** C4: for a record whose regulation text matches the no-parking / tow-away
    pattern and whose day set includes the weekday of the query, a query
    interval of positive length gets the coverage
    (duration - overlap) / duration, where overlap is the number of minutes
    the query shares with the regulation's time window.  The record
    M-F 0900-1800 "No parking 9am-6pm" gives 0.5 on Monday 08:00-10:00 and
    1.0 on Monday 20:00-21:00. *)
Theorem coverage_no_parking (props : Props) (start end_ : Date)
    (daySet : list Z) (reg : string) :
  validDate start -> validDate end_ ->
  minutes start < minutes end_ ->
  regulation props = VStr reg ->
  test noParkingPattern (toLowerCase reg) = true ->
  parseDays (days props) = Ok (Some daySet) ->
  In (getDay start) daySet ->
  let duration := minutes end_ - minutes start in
  (exists regTime overlap,
      parseTimeRange (hours props) = Ok regTime /\
      overlapMinutes regTime (minuteOfDay start) (minuteOfDay end_) (ofZ duration)
        = ofZ overlap /\
      (regTime = None -> overlap = duration) /\
      (forall s e, regTime = Some {| startMin := ofZ s; endMin := ofZ e |} ->
         (s < e ->
          overlap = Z.max 0 (Z.min e (minutes end_) - Z.max s (minutes start))) /\
         (e <= s ->
          overlap = Z.max 0 (Z.min 1440 (minutes end_) - Z.max s (minutes start))
                    + Z.max 0 (Z.min e (minutes end_) - Z.max 0 (minutes start)))) /\
      calculateCoverage props start end_
        = Ok (ndiv (ofZ (duration - overlap)) (ofZ duration))) /\
  (calculateCoverage noParkingSign (mkDate 1 8 0) (mkDate 1 10 0) = Ok (Fin (1 # 2)) /\
   calculateCoverage noParkingSign (mkDate 1 20 0) (mkDate 1 21 0) = Ok (ofZ 1)).
Proof.
  intros Hvs Hve Hlt Ereg Hno Ed Hin duration. split.
  - destruct (parseTimeRange_ok (hours props)) as (regTime & Et & Hshape).
    pose proof (minutes_range _ Hvs) as Rs. pose proof (minutes_range _ Hve) as Re.
    destruct (overlapMinutes_shape regTime (minutes start) (minutes end_) Hshape
                ltac:(lia)) as (o & Eo & Ho).
    exists regTime, o. split; [exact Et|]. split; [exact Eo|].
    split; [|split].
    + intros ->. cbn [overlapMinutes] in Eo. apply ofZ_inj in Eo. subst o. reflexivity.
    + intros s e ->. apply overlapMinutes_value; [lia|lia|lia|exact Eo].
    + assert (Er : regulationText props = Ok (toLowerCase reg)).
      { unfold regulationText, orElse. rewrite Ereg. cbn [truthy].
        destruct (String.eqb_spec reg "") as [->|_]; reflexivity. }
      rewrite (calculateCoverage_cases props start end_ _ _ _ o Ed Et Er Hlt Eo).
      cbv zeta. fold duration.
      cbn [regulationAppliesToday]. apply has_In in Hin. rewrite Hin. cbn [negb].
      rewrite Hno.
      destruct (Z.eqb_spec o 0) as [->|_]; [|reflexivity].
      rewrite Z.sub_0_r, ndiv_same by (unfold duration; lia). reflexivity.
  - split; vm_compute; reflexivity.
Qed.

Lemma coverage_no_parking_witness :
  validDate (mkDate 1 8 0) /\ validDate (mkDate 1 10 0) /\
  minutes (mkDate 1 8 0) < minutes (mkDate 1 10 0) /\
  test noParkingPattern (toLowerCase "No parking 9am-6pm") = true /\
  parseDays (days noParkingSign) = Ok (Some [1; 2; 3; 4; 5]) /\
  In 1 [1; 2; 3; 4; 5] /\
  exists regTime overlap,
    parseTimeRange (hours noParkingSign) = Ok regTime /\
    calculateCoverage noParkingSign (mkDate 1 8 0) (mkDate 1 10 0)
      = Ok (ndiv (ofZ (120 - overlap)) (ofZ 120)).
Proof.
  assert (Hvs : validDate (mkDate 1 8 0)) by (unfold validDate; simpl; lia).
  assert (Hve : validDate (mkDate 1 10 0)) by (unfold validDate; simpl; lia).
  assert (Hlt : minutes (mkDate 1 8 0) < minutes (mkDate 1 10 0)) by (vm_compute; reflexivity).
  assert (Hno : test noParkingPattern (toLowerCase "No parking 9am-6pm") = true)
    by (vm_compute; reflexivity).
  assert (Ed : parseDays (days noParkingSign) = Ok (Some [1; 2; 3; 4; 5]))
    by (vm_compute; reflexivity).
  assert (Hin : In 1 [1; 2; 3; 4; 5]) by (simpl; auto).
  split; [exact Hvs|]. split; [exact Hve|]. split; [exact Hlt|].
  split; [exact Hno|]. split; [exact Ed|]. split; [exact Hin|].
  destruct (coverage_no_parking noParkingSign (mkDate 1 8 0) (mkDate 1 10 0) [1; 2; 3; 4; 5]
              "No parking 9am-6pm" Hvs Hve Hlt eq_refl Hno Ed Hin)
    as [(regTime & overlap & Et & _ & _ & _ & Ec) _].
  exists regTime, overlap. split; [exact Et|exact Ec].
Defined.

(** C5: for a record that is not classified as no-parking and whose hour
    limit text ([hrlimit], or [hours] when [hrlimit] is absent) contains a
    first integer n, a query interval of positive length gets
    min(1, (duration - overlap + allowed) / duration) with the limit
    n * 60 minutes and allowed = min(limit, overlap); overlap counts the
    minutes shared with the time window on a weekday the regulation applies
    to, and is zero on the other weekdays.  The record M-F 0900-1800 with
    hrlimit "2" gives 0.5 on Monday 09:00-13:00. *)
Theorem coverage_hour_limit (props : Props) (start end_ : Date)
    (text limitText : string) (n : Z) :
  minutes start < minutes end_ ->
  regulationText props = Ok text ->
  test noParkingPattern text = false ->
  orElse (hrlimit props) (hours props) = VStr limitText ->
  firstIntegerOf limitText = Some n ->
  let duration := minutes end_ - minutes start in
  (exists activeDays regTime overlap,
      parseDays (days props) = Ok activeDays /\
      parseTimeRange (hours props) = Ok regTime /\
      (if regulationAppliesToday activeDays (getDay start)
       then overlapMinutes regTime (minuteOfDay start) (minuteOfDay end_) (ofZ duration)
       else ofZ 0) = ofZ overlap /\
      let limitMinutes := ofZ (n * 60) in
      let allowedMinutes := nmin limitMinutes (ofZ overlap) in
      calculateCoverage props start end_
        = Ok (nmin (ofZ 1)
                (ndiv (nadd (ofZ (duration - overlap)) allowedMinutes) (ofZ duration)))) /\
  calculateCoverage meteredSign (mkDate 1 9 0) (mkDate 1 13 0) = Ok (Fin (1 # 2)).
Proof.
  intros Hlt Er Hno El En duration. split; [|vm_compute; reflexivity].
  destruct (parseDays_ok (days props)) as (activeDays & Ed & _).
  destruct (parseTimeRange_ok (hours props)) as (regTime & Et & Hshape).
  destruct (overlapMinutes_shape regTime (minutes start) (minutes end_) Hshape
              ltac:(lia)) as (o & Eo & Ho).
  pose proof (firstIntegerOf_nonneg _ _ En) as Hn.
  assert (Hd : 0 < duration) by (unfold duration; lia).
  assert (Efree : nmin (ofZ 1)
                    (ndiv (nadd (ofZ (duration - 0)) (nmin (ofZ (n * 60)) (ofZ 0)))
                          (ofZ duration)) = ofZ 1).
  { rewrite nmin_ofZ, nadd_ofZ.
    replace (duration - 0 + Z.min (n * 60) 0) with duration by lia.
    rewrite ndiv_same by assumption. reflexivity. }
  assert (Elim : timeLimitMinutes props = Some (ofZ (n * 60))).
  { rewrite (timeLimitMinutes_text props limitText El), En.
    destruct (String.eqb_spec limitText "") as [->|_]; [discriminate En|reflexivity]. }
  pose proof (calculateCoverage_cases props start end_ _ _ _ o Ed Et Er Hlt Eo) as Ec.
  cbv zeta in Ec. fold duration in Ec.
  exists activeDays, regTime.
  destruct (regulationAppliesToday activeDays (getDay start)); cbn [negb] in Ec.
  - exists o. split; [exact Ed|]. split; [exact Et|]. split; [exact Eo|]. cbv zeta.
    rewrite Ec.
    destruct (Z.eqb_spec o 0) as [->|Hne]; [rewrite Efree; reflexivity|].
    rewrite Hno, Elim, truthy_ofZ. replace (0 <? o)%Z with true by lia.
    destruct (Z.eqb_spec (n * 60) 0) as [E0|_]; cbn [negb andb]; [|reflexivity].
    rewrite E0, nmin_ofZ, nadd_ofZ.
    replace (duration - o + Z.min 0 o) with (duration - o) by lia.
    rewrite nmin_one_ratio by lia. reflexivity.
  - exists 0. split; [exact Ed|]. split; [exact Et|]. split; [reflexivity|]. cbv zeta.
    rewrite Ec, Efree. reflexivity.
Qed.

Lemma coverage_hour_limit_witness :
  minutes (mkDate 1 9 0) < minutes (mkDate 1 13 0) /\
  regulationText meteredSign = Ok "" /\
  test noParkingPattern "" = false /\
  orElse (hrlimit meteredSign) (hours meteredSign) = VStr "2" /\
  firstIntegerOf "2" = Some 2 /\
  exists overlap,
    calculateCoverage meteredSign (mkDate 1 9 0) (mkDate 1 13 0)
      = Ok (nmin (ofZ 1)
              (ndiv (nadd (ofZ (240 - overlap)) (nmin (ofZ 120) (ofZ overlap))) (ofZ 240))).
Proof.
  assert (Hlt : minutes (mkDate 1 9 0) < minutes (mkDate 1 13 0)) by (vm_compute; reflexivity).
  assert (Er : regulationText meteredSign = Ok "") by reflexivity.
  assert (Hno : test noParkingPattern "" = false) by (vm_compute; reflexivity).
  assert (El : orElse (hrlimit meteredSign) (hours meteredSign) = VStr "2") by reflexivity.
  assert (En : firstIntegerOf "2" = Some 2) by (vm_compute; reflexivity).
  split; [exact Hlt|]. split; [exact Er|]. split; [exact Hno|].
  split; [exact El|]. split; [exact En|].
  destruct (coverage_hour_limit meteredSign (mkDate 1 9 0) (mkDate 1 13 0) "" "2" 2
              Hlt Er Hno El En) as [(activeDays & regTime & overlap & _ & _ & _ & Ec) _].
  exists overlap. exact Ec.
Defined.

(** C6 as stated fails on a query of length zero: the two dates of the query
    are the same Monday 10:00, the regulation runs 09:00-18:00 every day;
    [intersectsRange] finds no overlap and [calculateCoverage] returns 0. *)
Lemma empty_query_coverage_zero :
  intersectsRange dayRule (mkDate 1 10 0) (mkDate 1 10 0) = Ok false /\
  calculateCoverage dayRule (mkDate 1 10 0) (mkDate 1 10 0) = Ok (ofZ 0) /\
  calculateCoverage dayRule (mkDate 1 10 0) (mkDate 1 10 0) <> Ok (ofZ 1).
Proof.
  split; [vm_compute; reflexivity|]. split; [vm_compute; reflexivity|].
  vm_compute. discriminate.
Qed.

(** C6, amended: for every record whose regulation is a text or absent and
    every pair of valid dates whose second minute of the day is after the
    first, if [intersectsRange] returns false then [calculateCoverage]
    returns 1.0 for the same inputs. *)
Theorem no_intersection_full_coverage (props : Props) (start end_ : Date)
    (text : string) :
  validDate start -> validDate end_ ->
  minutes start < minutes end_ ->
  regulationText props = Ok text ->
  intersectsRange props start end_ = Ok false ->
  calculateCoverage props start end_ = Ok (ofZ 1).
Proof.
  intros Hvs Hve Hlt Er Hno.
  destruct (parseDays_ok (days props)) as (activeDays & Ed & _).
  destruct (parseTimeRange_ok (hours props)) as (regTime & Et & Hshape).
  pose proof (minutes_range _ Hvs) as Rs. pose proof (minutes_range _ Hve) as Re.
  destruct (overlapMinutes_shape regTime (minutes start) (minutes end_) Hshape
              ltac:(lia)) as (o & Eo & Ho).
  rewrite (calculateCoverage_cases props start end_ _ _ _ o Ed Et Er Hlt Eo).
  cbv zeta. unfold intersectsRange in Hno. rewrite Ed, Et in Hno. cbn [bind] in Hno.
  unfold excludesDay in Hno. unfold regulationAppliesToday.
  destruct activeDays as [daySet|].
  - destruct (has daySet (getDay start)); cbn [negb] in *; [|reflexivity].
    destruct regTime as [rt|]; [|discriminate Hno].
    assert (E0 : o = 0).
    { apply (no_intersection_no_overlap rt (minutes start) (minutes end_) o);
        [apply Hshape; reflexivity|lia|lia|lia| |exact Eo].
      unfold minuteOfDay in Hno. fold (minutes start) (minutes end_) in Hno.
      destruct (nle (endMin rt) (startMin rt)); congruence. }
    subst o. reflexivity.
  - cbn [negb]. destruct regTime as [rt|]; [|discriminate Hno].
    assert (E0 : o = 0).
    { apply (no_intersection_no_overlap rt (minutes start) (minutes end_) o);
        [apply Hshape; reflexivity|lia|lia|lia| |exact Eo].
      unfold minuteOfDay in Hno. fold (minutes start) (minutes end_) in Hno.
      destruct (nle (endMin rt) (startMin rt)); congruence. }
    subst o. reflexivity.
Qed.

Lemma no_intersection_full_coverage_witness :
  validDate (mkDate 1 20 0) /\ validDate (mkDate 1 21 0) /\
  minutes (mkDate 1 20 0) < minutes (mkDate 1 21 0) /\
  regulationText dayRule = Ok "" /\
  intersectsRange dayRule (mkDate 1 20 0) (mkDate 1 21 0) = Ok false /\
  calculateCoverage dayRule (mkDate 1 20 0) (mkDate 1 21 0) = Ok (ofZ 1).
Proof.
  assert (Hvs : validDate (mkDate 1 20 0)) by (unfold validDate; simpl; lia).
  assert (Hve : validDate (mkDate 1 21 0)) by (unfold validDate; simpl; lia).
  assert (Hlt : minutes (mkDate 1 20 0) < minutes (mkDate 1 21 0))
    by (vm_compute; reflexivity).
  assert (Er : regulationText dayRule = Ok "") by reflexivity.
  assert (Hno : intersectsRange dayRule (mkDate 1 20 0) (mkDate 1 21 0) = Ok false)
    by (vm_compute; reflexivity).
  split; [exact Hvs|]. split; [exact Hve|]. split; [exact Hlt|].
  split; [exact Er|]. split; [exact Hno|].
  exact (no_intersection_full_coverage dayRule (mkDate 1 20 0) (mkDate 1 21 0) ""
           Hvs Hve Hlt Er Hno).
Defined.

(** ** The digit format, field by field *)

Lemma clockDigits_cases (t : string) :
  clockDigits t ->
  (exists a b c, t = String a (String b (String c "")) /\
                 isDigit a = true /\ isDigit b = true /\ isDigit c = true) \/
  (exists a b c d, t = String a (String b (String c (String d ""))) /\
                   isDigit a = true /\ isDigit b = true /\ isDigit c = true /\
                   isDigit d = true).
Proof.
  intros [Hall Hlen].
  destruct t as [|a [|b [|c [|d [|e t]]]]]; cbn [length] in Hlen; try lia;
    cbn [allChars] in Hall; repeat rewrite andb_true_iff in Hall.
  - left. exists a, b, c. intuition.
  - right. exists a, b, c, d. intuition.
Qed.

Lemma clock_reading (t : string) :
  clockDigits t ->
  parseInt (Some (jsSubstring 0 2 (padStart0 4 t))) = ofZ (digitsVal 0 t / 100) /\
  parseInt (Some (jsSubstring 2 4 (padStart0 4 t))) = ofZ (digitsVal 0 t mod 100).
Proof.
  intros H.
  destruct (clockDigits_cases _ H) as [(a & b & c & -> & Ha & Hb & Hc)
                                      |(a & b & c & d & -> & Ha & Hb & Hc & Hd)];
    pose proof (digitVal_range _ Ha); pose proof (digitVal_range _ Hb);
    pose proof (digitVal_range _ Hc); try pose proof (digitVal_range _ Hd);
    unfold padStart0, jsSubstring; cbn [length Nat.sub zeros append substring parseInt];
    rewrite !parseIntStr_digits
      by (cbn [allChars]; rewrite ?Ha, ?Hb, ?Hc, ?Hd; reflexivity);
    cbn [digitsVal]; change (digitVal "0") with 0; split; f_equal.
  - apply Z.div_unique with (r := 10 * digitVal b + digitVal c); lia.
  - apply Z.mod_unique with (q := digitVal a); lia.
  - apply Z.div_unique with (r := 10 * digitVal c + digitVal d); lia.
  - apply Z.mod_unique with (q := 10 * digitVal a + digitVal b); lia.
Qed.

Section FormatAText.

Variable whole : string.

Lemma in_run_clock_text (n : nat) (s : string) (c : captures) (h : hit) :
  In h (run whole (RGroup n (RRep 3 (Some 4%nat) digit)) s c) ->
  caps h n = Some (text h) /\ clockDigits (text h).
Proof.
  intros H. apply in_run_group in H. destruct H as (g & Hg & ->).
  cbn [caps text]. unfold setCapture. rewrite Nat.eqb_refl.
  split; [reflexivity|].
  apply run_rep_chars in Hg. destruct Hg as (Hall & Hlo & Hhi).
  specialize (Hhi 4%nat eq_refl). split; [assumption|lia].
Qed.

(** A match of Format A is two groups of digits around a hyphen. *)
Lemma formatA_text (s : string) (h : hit) :
  In h (run whole formatA s noCaptures) ->
  exists t1 t2,
    text h = t1 ++ "-" ++ t2 /\
    caps h 1%nat = Some t1 /\ caps h 2%nat = Some t2 /\
    clockDigits t1 /\ clockDigits t2.
Proof.
  unfold formatA. cbn [seq]. intros H.
  apply in_run_seq in H. destruct H as (h0 & r0 & H0 & H & ->).
  assert (T0 : text h0 = "").
  { cbn [run] in H0. destruct (Nat.eqb (length s) (length whole)); [|contradiction].
    destruct H0 as [<-|[]]. reflexivity. }
  apply in_run_seq in H. destruct H as (h1 & r1 & H1 & H & ->).
  apply in_run_clock_text in H1. destruct H1 as (E1 & D1).
  apply in_run_seq in H. destruct H as (h2 & r2 & H2 & H & ->).
  pose proof H2 as F2. apply run_keeps with (k := 1%nat) in F2; [|not_in_groups].
  apply in_run_chr in H2. destruct H2 as (s2 & Es2 & Eh2).
  apply in_run_seq in H. destruct H as (h3 & r3 & H3 & H & ->).
  pose proof H3 as F3. apply run_keeps with (k := 1%nat) in F3; [|not_in_groups].
  apply in_run_clock_text in H3. destruct H3 as (E3 & D3).
  pose proof H as F4. apply run_keeps with (k := 1%nat) in F4; [|not_in_groups].
  pose proof H as G4. apply run_keeps with (k := 2%nat) in G4; [|not_in_groups].
  assert (T4 : text r3 = "").
  { cbn [run] in H. destruct (rest h3); [|contradiction]. destruct H as [<-|[]]. reflexivity. }
  exists (text h1), (text h3). cbn [text caps].
  rewrite T0, T4, F4, F3, F2, G4. subst h2. cbn [text append].
  rewrite append_empty_r.
  split; [reflexivity|]. split; [exact E1|]. split; [exact E3|]. split; assumption.
Qed.

End FormatAText.

Lemma formatA_shape (cleaned : string) (m : hit) :
  exec formatA cleaned = Some m ->
  exists t1 t2,
    cleaned = t1 ++ "-" ++ t2 /\
    caps m 1%nat = Some t1 /\ caps m 2%nat = Some t2 /\
    clockDigits t1 /\ clockDigits t2.
Proof.
  intros Em.
  destruct (exec_anchored (fun _ => true) formatA cleaned m) as [Et _];
    [exact I|exact I| |exact Em|].
  { unfold formatA, digit, chr. cbn [seq charsWithin]. repeat split; reflexivity. }
  destruct (exec_in _ _ _ Em) as (s' & Hin).
  destruct (formatA_text _ _ _ Hin) as (t1 & t2 & E & E1 & E2 & D1 & D2).
  exists t1, t2. rewrite <- Et, E. auto.
Qed.

Lemma clock_fields_range (t : string) :
  clockDigits t ->
  0 <= hourField t <= 99 /\ 0 <= minuteField t <= 99.
Proof.
  intros H. unfold hourField, minuteField.
  assert (R : 0 <= digitsVal 0 t <= 9999).
  { destruct (clockDigits_cases _ H) as [(a & b & c & -> & Ha & Hb & Hc)
                                        |(a & b & c & d & -> & Ha & Hb & Hc & Hd)];
      pose proof (digitVal_range _ Ha); pose proof (digitVal_range _ Hb);
      pose proof (digitVal_range _ Hc); try pose proof (digitVal_range _ Hd);
      cbn [digitsVal]; lia. }
  split.
  - assert (digitsVal 0 t / 100 < 100) by (apply Z.div_lt_upper_bound; lia).
    split; [apply Z.div_pos; lia|lia].
  - pose proof (Z.mod_pos_bound (digitsVal 0 t) 100). lia.
Qed.

(** C7 as stated fails on "0900-2400": Format A matches and the window is
    (540, 1440), whose end is not below 1440 and which is not the all-day
    window.  On "9999-9999" the window is (6039, 6039). *)
Lemma parseTimeRange_out_of_day :
  parseTimeRange (VStr "0900-2400")
    = Ok (Some {| startMin := ofZ 540; endMin := ofZ 1440 |}) /\
  {| startMin := ofZ 540; endMin := ofZ 1440 |} <> allDay /\
  ~ 1440 < 1440 /\
  parseTimeRange (VStr "9999-9999")
    = Ok (Some {| startMin := ofZ 6039; endMin := ofZ 6039 |}) /\
  {| startMin := ofZ 6039; endMin := ofZ 6039 |} <> allDay /\
  ~ 6039 < 1440.
Proof.
  split; [vm_compute; reflexivity|]. split; [discriminate|]. split; [lia|].
  split; [vm_compute; reflexivity|]. split; [discriminate|lia].
Qed.

(** C7, amended: for every input text that takes the all-day rule or matches
    Format A, [parseTimeRange] returns a window; it is the all-day window
    (0, 1440), or the cleaned text is two groups of three or four digits
    around a hyphen and the start and the end of the window are
    HH * 60 + MM of the first and of the second group, HH and MM being the
    two-digit fields of the group read as the number HHMM.  Both are
    integers between 0 and 6039, below 1440 whenever HH < 24 and MM < 60.
    The fields are not brought back into a day: a window that ends at or
    before its start is an overnight window. *)
Theorem parseTimeRange_formatA_bounds (s : string) :
  isAllDayText s = true \/ exec formatA (cleanedOf s) <> None ->
  exists w,
    parseTimeRange (VStr s) = Ok (Some w) /\
    (w = allDay \/
     exists t1 t2,
       cleanedOf s = t1 ++ "-" ++ t2 /\ clockDigits t1 /\ clockDigits t2 /\
       startMin w = ofZ (hourField t1 * 60 + minuteField t1) /\
       endMin w = ofZ (hourField t2 * 60 + minuteField t2) /\
       0 <= hourField t1 * 60 + minuteField t1 <= 6039 /\
       0 <= hourField t2 * 60 + minuteField t2 <= 6039 /\
       (hourField t1 < 24 -> minuteField t1 < 60 ->
        hourField t1 * 60 + minuteField t1 < 1440) /\
       (hourField t2 < 24 -> minuteField t2 < 60 ->
        hourField t2 * 60 + minuteField t2 < 1440)).
Proof.
  intros H. cbn [parseTimeRange].
  destruct (isAllDayText s) eqn:Eall; [exists allDay; auto|].
  destruct H as [H|H]; [discriminate H|].
  destruct (exec formatA (cleanedOf s)) as [m|] eqn:EA; [|congruence].
  destruct (formatA_shape _ _ EA) as (t1 & t2 & Ec & E1 & E2 & D1 & D2).
  unfold fromFormatA. rewrite E1, E2. cbn [receiver bind].
  destruct (clock_reading t1 D1) as [-> ->]. destruct (clock_reading t2 D2) as [-> ->].
  autorewrite with ofZ. eexists. split; [reflexivity|]. right.
  pose proof (clock_fields_range t1 D1). pose proof (clock_fields_range t2 D2).
  exists t1, t2. cbn [startMin endMin]. fold (hourField t1) (minuteField t1).
  fold (hourField t2) (minuteField t2).
  split; [exact Ec|]. split; [exact D1|]. split; [exact D2|].
  split; [reflexivity|]. split; [reflexivity|].
  split; [lia|]. split; [lia|]. split; intros; lia.
Qed.

Lemma parseTimeRange_formatA_bounds_witness :
  (isAllDayText "0900-1800" = true \/ exec formatA (cleanedOf "0900-1800") <> None) /\
  exists w,
    parseTimeRange (VStr "0900-1800") = Ok (Some w) /\
    (w = allDay \/
     exists t1 t2,
       cleanedOf "0900-1800" = t1 ++ "-" ++ t2 /\ clockDigits t1 /\ clockDigits t2 /\
       startMin w = ofZ (hourField t1 * 60 + minuteField t1) /\
       endMin w = ofZ (hourField t2 * 60 + minuteField t2) /\
       0 <= hourField t1 * 60 + minuteField t1 <= 6039 /\
       0 <= hourField t2 * 60 + minuteField t2 <= 6039 /\
       (hourField t1 < 24 -> minuteField t1 < 60 ->
        hourField t1 * 60 + minuteField t1 < 1440) /\
       (hourField t2 < 24 -> minuteField t2 < 60 ->
        hourField t2 * 60 + minuteField t2 < 1440)).
Proof.
  assert (H : isAllDayText "0900-1800" = true \/
              exec formatA (cleanedOf "0900-1800") <> None)
    by (right; vm_compute; discriminate).
  split; [exact H|]. exact (parseTimeRange_formatA_bounds "0900-1800" H).
Defined.

(** C8: [parseDays] never returns an empty set: on every input it returns
    either [null] or a non-empty set of weekday indices between 0 and 6.  A
    range whose first day comes after its last one ("FR-MO") adds no day,
    and an input whose parts are all such ranges or unknown abbreviations
    gives [null]. *)
Theorem parseDays_never_empty (str : value) :
  exists r,
    parseDays str = Ok r /\
    (r = None \/ exists ds, r = Some ds /\ ds <> [] /\ weekdays ds) /\
    (forall s,
        str = VStr s ->
        Forall Barren (split daySeparator (toUpperCase s)) -> r = None) /\
    (forall part ds, Barren part -> addPart ds part = Ok ds) /\
    Barren "FR-MO" /\
    parseDays (VStr "FR-MO") = Ok None.
Proof.
  destruct (parseDays_ok str) as (r & Er & Hr). exists r.
  split; [exact Er|]. split; [exact Hr|]. split; [|split; [|split]].
  - intros s -> Hb. cbn [parseDays] in Er.
    destruct (s =? "")%string; [congruence|].
    rewrite (addParts_barren _ [] Hb) in Er. cbn [bind] in Er. congruence.
  - intros part ds Hb. apply addPart_barren, Hb.
  - apply (BackwardRange "FR-MO" "FR" "MO" [] 5 1); [reflexivity..|lia].
  - vm_compute. reflexivity.
Qed.

Lemma parseDays_never_empty_witness :
  Forall Barren (split daySeparator (toUpperCase "fr-mo, xx")) /\
  parseDays (VStr "fr-mo, xx") = Ok None.
Proof.
  assert (Hb : Forall Barren (split daySeparator (toUpperCase "fr-mo, xx"))).
  { change (split daySeparator (toUpperCase "fr-mo, xx")) with ["FR-MO"; "XX"].
    constructor; [|constructor; [|constructor]].
    - apply (BackwardRange "FR-MO" "FR" "MO" [] 5 1); [reflexivity..|lia].
    - apply UnknownDay; reflexivity. }
  split; [exact Hb|].
  destruct (parseDays_never_empty (VStr "fr-mo, xx")) as (r & Er & _ & Hnone & _).
  rewrite Er. f_equal. exact (Hnone "fr-mo, xx" eq_refl Hb).
Defined.

(** C10: every input text that does not match Format A and matches the
    flexible Format B gives a window whose end minute is [NaN]: the end hour
    is read from capture group 4, the start side's meridiem, which is
    undefined, "am" or "pm" and parses to [NaN].  With such a window
    [isActiveAt] is false at every date, the window shares no minute with
    any query and [intersectsRange] is false. *)
Theorem formatB_window_end_NaN (s : string) :
  exec formatA (cleanedOf s) = None ->
  exec formatB (cleanedOf s) <> None ->
  exists m w,
    exec formatB (cleanedOf s) = Some m /\
    (caps m 4%nat = None \/ caps m 4%nat = Some "am" \/ caps m 4%nat = Some "pm") /\
    parseInt (caps m 4%nat) = NaN /\
    parseTimeRange (VStr s) = Ok (Some w) /\
    endMin w = NaN /\
    (forall props date, hours props = VStr s -> isActiveAt props date = Ok false) /\
    (forall us ue dur, overlapMinutes (Some w) us ue dur = ofZ 0) /\
    (forall props start end_,
        hours props = VStr s -> intersectsRange props start end_ = Ok false).
Proof.
  intros EA EB. pose proof (formatB_not_all_day s EB) as Eall.
  destruct (exec formatB (cleanedOf s)) as [m|] eqn:Em; [|congruence].
  destruct (formatB_end_NaN _ _ Em) as (Hg & Hp & Hend).
  assert (Et : parseTimeRange (VStr s) = Ok (Some (fromFormatB m))).
  { cbn [parseTimeRange]. rewrite Eall, EA, Em. reflexivity. }
  exists m, (fromFormatB m).
  split; [reflexivity|]. split; [exact Hg|]. split; [exact Hp|].
  split; [exact Et|]. split; [exact Hend|].
  destruct (fromFormatB m) as [st en] eqn:Ew. cbn [endMin] in Hend. subst en.
  split; [|split].
  - intros props date Eh. unfold isActiveAt.
    destruct (parseDays_ok (days props)) as (ad & -> & _).
    rewrite Eh, Et. cbn [bind]. f_equal. unfold activeAt. cbn [startMin endMin].
    autorewrite with ofZ. cbn [nle]. destruct ad; autorewrite with ofZ; reflexivity.
  - intros us ue dur. apply overlapMinutes_NaN_end.
  - intros props start end_ Eh. unfold intersectsRange.
    destruct (parseDays_ok (days props)) as (ad & -> & _).
    rewrite Eh, Et. cbn [bind startMin endMin].
    destruct (excludesDay ad (getDay start)); [reflexivity|].
    cbn [nle]. autorewrite with ofZ. cbn [nmin]. autorewrite with ofZ. reflexivity.
Qed.

Lemma formatB_window_end_NaN_witness :
  exec formatA (cleanedOf "8am-6pm") = None /\
  exec formatB (cleanedOf "8am-6pm") <> None /\
  exists w,
    parseTimeRange (VStr "8am-6pm") = Ok (Some w) /\ endMin w = NaN.
Proof.
  assert (EA : exec formatA (cleanedOf "8am-6pm") = None) by (vm_compute; reflexivity).
  assert (EB : exec formatB (cleanedOf "8am-6pm") <> None) by (vm_compute; discriminate).
  split; [exact EA|]. split; [exact EB|].
  destruct (formatB_window_end_NaN "8am-6pm" EA EB)
    as (m & w & _ & _ & _ & Et & Hend & _).
  exists w. split; [exact Et|exact Hend].
Defined.

(** * Further properties of the parser and of the map *)

(** ** Day sets as sets *)

Section DaySets.

Lemma add_In (ds : list Z) (d x : Z) : In x (add ds d) <-> In x ds \/ x = d.
Proof.
  unfold add. destruct (has ds d) eqn:E.
  - apply has_In in E. split; [auto|]. intros [H| ->]; assumption.
  - rewrite in_app_iff. cbn [In]. intuition.
Qed.

Lemma add_NoDup (ds : list Z) (d : Z) : NoDup ds -> NoDup (add ds d).
Proof.
  intros H. unfold add. destruct (has ds d) eqn:E; [assumption|].
  assert (Hn : ~ In d ds) by (rewrite <- has_In; congruence).
  apply NoDup_rev in H. rewrite <- (rev_involutive (ds ++ [d])).
  apply NoDup_rev. rewrite rev_app_distr. cbn [rev app].
  constructor; [rewrite <- in_rev; exact Hn|exact H].
Qed.

Lemma addRange_In (n : nat) :
  forall ds i x, In x (addRange ds i n) <-> In x ds \/ i <= x < i + Z.of_nat n.
Proof.
  induction n as [|n IH]; intros ds i x; cbn [addRange].
  - split; [auto|]. intros [H|H]; [assumption|lia].
  - rewrite IH, add_In. split.
    + intros [[H| ->]|H]; [auto|right; lia|right; lia].
    + intros [H|H]; [auto|].
      destruct (Z.eq_dec x i) as [->|Hne]; [auto|right; lia].
Qed.

Lemma addRange_NoDup (n : nat) :
  forall ds i, NoDup ds -> NoDup (addRange ds i n).
Proof.
  induction n as [|n IH]; intros ds i H; cbn [addRange]; [assumption|].
  apply IH, add_NoDup, H.
Qed.

Lemma addPart_In (ds ds' : list Z) (part : string) :
  addPart ds part = Ok ds' ->
  (forall d, In d ds' <-> In d ds \/ contributes part d) /\
  (NoDup ds -> NoDup ds').
Proof.
  unfold addPart, contributes. destruct (includes "-" part) eqn:Ei.
  - destruct (splitChar_includes _ _ Ei) as (a & b & l & E). rewrite E.
    cbn [nth_error receiver bind].
    destruct (lookup DAY_MAP (trim a)) as [first|] eqn:Ea;
      [destruct (lookup DAY_MAP (trim b)) as [last|] eqn:Eb|]; intros [= <-].
    + split; [|apply addRange_NoDup]. intros d. rewrite addRange_In. split.
      * intros [H|H]; [auto|]. right. left. split; [reflexivity|].
        exists a, b, l, first, last. repeat split; try assumption; lia.
      * intros [H|[[_ (a' & b' & l' & f' & l2 & E' & Ea' & Eb' & Hd)]|[F _]]];
          [auto| |discriminate F].
        injection E' as <- <- <-. rewrite Ea in Ea'. rewrite Eb in Eb'.
        injection Ea' as <-. injection Eb' as <-. right. lia.
    + split; [|auto]. intros d. split; [auto|].
      intros [H|[[_ (a' & b' & l' & f' & l2 & E' & Ea' & Eb' & Hd)]|[F _]]];
        [auto| |discriminate F].
      injection E' as <- <- <-. congruence.
    + split; [|auto]. intros d. split; [auto|].
      intros [H|[[_ (a' & b' & l' & f' & l2 & E' & Ea' & Eb' & Hd)]|[F _]]];
        [auto| |discriminate F].
      injection E' as <- <- <-. congruence.
  - destruct (lookup DAY_MAP (trim part)) as [day|] eqn:Ed; intros [= <-].
    + split; [|apply add_NoDup]. intros d. rewrite add_In. split.
      * intros [H| ->]; [auto|]. right. right. auto.
      * intros [H|[[F _]|[_ Hd]]]; [auto|discriminate F|]. right. congruence.
    + split; [|auto]. intros d. split; [auto|].
      intros [H|[[F _]|[_ Hd]]]; [auto|discriminate F|discriminate Hd].
Qed.

Lemma addParts_In (parts : list string) :
  forall ds ds',
    addParts ds parts = Ok ds' ->
    (forall d, In d ds' <->
               In d ds \/ exists part, In part parts /\ contributes part d) /\
    (NoDup ds -> NoDup ds').
Proof.
  induction parts as [|part parts IH]; intros ds ds'; cbn [addParts].
  - intros [= <-]. split; [|auto]. intros d. split; [auto|].
    intros [H|(p & [] & _)]. exact H.
  - destruct (addPart ds part) as [ds1|e] eqn:E1; [|discriminate].
    cbn [bind]. intros E2.
    destruct (addPart_In _ _ _ E1) as [H1 N1]. destruct (IH _ _ E2) as [H2 N2].
    split; [|auto]. intros d. rewrite H2, H1. cbn [In]. split.
    + intros [[H|H]|(p & Hp & Hc)]; [auto|right; eauto|right; eauto].
    + intros [H|(p & [<-|Hp] & Hc)]; [auto|auto|right; eauto].
Qed.

End DaySets.

(** X1: the set [parseDays] returns holds exactly the days its parts stand
    for: a day is in the result iff some part of the upper-cased text, cut
    at commas, semicolons and white space, is a range that spans it or the
    abbreviation of it.  The set lists no day twice. *)
Theorem parseDays_members (s : string) :
  exists r,
    parseDays (VStr s) = Ok r /\
    (forall d,
        (exists ds, r = Some ds /\ In d ds) <->
        (exists part,
            In part (split daySeparator (toUpperCase s)) /\ contributes part d)) /\
    (forall ds, r = Some ds -> NoDup ds).
Proof.
  cbn [parseDays]. destruct (String.eqb_spec s "") as [->|Hne].
  - exists None. split; [reflexivity|]. split; [|discriminate].
    intros d. split; [intros (ds & F & _); discriminate F|].
    intros (part & Hin & Hc). exfalso.
    change (split daySeparator (toUpperCase "")) with [""] in Hin.
    destruct Hin as [<-|[]].
    destruct Hc as [[F _]|[_ F]]; discriminate F.
  - destruct (addParts_ok (split daySeparator (toUpperCase s)) [] (Forall_nil _))
      as (ds & E & _).
    rewrite E. cbn [bind]. destruct (addParts_In _ _ _ E) as [Hin Hnd].
    eexists. split; [reflexivity|]. split.
    + intros d. specialize (Hin d). cbn [In] in Hin.
      destruct ds as [|x ds]; split.
      * intros (ds' & F & _). discriminate F.
      * intros H. exfalso. apply Hin. right. exact H.
      * intros (ds' & [= <-] & H). apply Hin in H. destruct H as [[]|H]. exact H.
      * intros H. eexists. split; [reflexivity|]. apply Hin. right. exact H.
    + intros ds' Hs. destruct ds as [|x ds]; [discriminate Hs|].
      injection Hs as <-. apply Hnd. constructor.
Qed.

(** ** Letter case *)

Section LetterCase.

Lemma upper_lower (c : ascii) : upperChar (lowerChar c) = upperChar c.
Proof. destruct c as [[] [] [] [] [] [] [] []]; vm_compute; reflexivity. Qed.

Lemma upper_upper (c : ascii) : upperChar (upperChar c) = upperChar c.
Proof. destruct c as [[] [] [] [] [] [] [] []]; vm_compute; reflexivity. Qed.

Lemma lower_lower (c : ascii) : lowerChar (lowerChar c) = lowerChar c.
Proof. destruct c as [[] [] [] [] [] [] [] []]; vm_compute; reflexivity. Qed.

Lemma lower_upper (c : ascii) : lowerChar (upperChar c) = lowerChar c.
Proof. destruct c as [[] [] [] [] [] [] [] []]; vm_compute; reflexivity. Qed.

Lemma mapChars_compose (f g h : ascii -> ascii) (s : string) :
  (forall c, f (g c) = h c) -> mapChars f (mapChars g s) = mapChars h s.
Proof.
  intros H. induction s as [|c s IH]; cbn [mapChars]; [reflexivity|].
  rewrite H, IH. reflexivity.
Qed.

Lemma mapChars_empty (f : ascii -> ascii) (s : string) :
  (mapChars f s =? "") = (s =? "").
Proof. destruct s; reflexivity. Qed.

Lemma parseDays_case (f : ascii -> ascii) (s : string) :
  (forall c, upperChar (f c) = upperChar c) ->
  parseDays (VStr (mapChars f s)) = parseDays (VStr s).
Proof.
  intros H. cbn [parseDays]. rewrite mapChars_empty. unfold toUpperCase.
  rewrite (mapChars_compose upperChar f upperChar s H). reflexivity.
Qed.

Lemma parseTimeRange_case (f : ascii -> ascii) (s : string) :
  (forall c, upperChar (f c) = upperChar c) ->
  (forall c, lowerChar (f c) = lowerChar c) ->
  parseTimeRange (VStr (mapChars f s)) = parseTimeRange (VStr s).
Proof.
  intros Hu Hl. cbn [parseTimeRange]. unfold isAllDayText, cleanedOf.
  rewrite mapChars_empty. unfold toUpperCase, toLowerCase.
  rewrite (mapChars_compose upperChar f upperChar s Hu).
  rewrite (mapChars_compose lowerChar f lowerChar s Hl). reflexivity.
Qed.

End LetterCase.

(** X2: both parsers ignore letter case: the day text and the hours text
    written in lower case or in upper case parse as the original does. *)
Theorem parsers_ignore_case (s : string) :
  parseDays (VStr (toLowerCase s)) = parseDays (VStr s) /\
  parseDays (VStr (toUpperCase s)) = parseDays (VStr s) /\
  parseTimeRange (VStr (toLowerCase s)) = parseTimeRange (VStr s) /\
  parseTimeRange (VStr (toUpperCase s)) = parseTimeRange (VStr s).
Proof.
  split; [|split; [|split]].
  - apply parseDays_case, upper_lower.
  - apply parseDays_case, upper_upper.
  - apply parseTimeRange_case; [apply upper_lower|apply lower_lower].
  - apply parseTimeRange_case; [apply upper_upper|apply lower_upper].
Qed.

(** ** The digit format read as a clock *)

Section ClockReading.

#[local] Arguments Ascii.eqb : simpl never.
#[local] Arguments isDigit : simpl never.

Lemma formatA_reads (t1 t2 : string) :
  clockDigits t1 -> clockDigits t2 ->
  exists m, exec formatA (t1 ++ "-" ++ t2) = Some m /\
            caps m 1%nat = Some t1 /\ caps m 2%nat = Some t2.
Proof.
  intros H1 H2.
  destruct (clockDigits_cases _ H1) as [(a & b & c & -> & Ha & Hb & Hc)
                                       |(a & b & c & d & -> & Ha & Hb & Hc & Hd)];
  destruct (clockDigits_cases _ H2) as [(e & f & g & -> & He & Hf & Hg)
                                       |(e & f & g & h & -> & He & Hf & Hg & Hh)].
  all: unfold exec, formatA, digit, chr;
    repeat (progress (cbn; rewrite ?Ha, ?Hb, ?Hc, ?Hd, ?He, ?Hf, ?Hg, ?Hh, ?Ascii.eqb_refl;
                      try change (isDigit "-") with false));
    eexists; split; [reflexivity|split; reflexivity].
Qed.

Lemma formatA_not_all_day (s : string) (m : hit) :
  exec formatA (cleanedOf s) = Some m -> isAllDayText s = false.
Proof.
  intros Em.
  assert (Hall : allChars clockChar (cleanedOf s) = true).
  { apply (exec_anchored clockChar formatA _ m); [exact I|exact I| |exact Em].
    unfold formatA, digit. cbn [seq charsWithin]. unfold chr. cbn [charsWithin].
    repeat split; intros x Hx; unfold clockChar;
      solve [ rewrite Hx; reflexivity
            | apply Ascii.eqb_eq in Hx; subst x; reflexivity ]. }
  unfold isAllDayText. apply orb_false_iff. split; [apply orb_false_iff; split|].
  - destruct (String.eqb_spec s "") as [->|_]; [|reflexivity].
    vm_compute in Em. discriminate Em.
  - destruct (includes "ANYTIME" (toUpperCase s)) eqn:E; [|reflexivity].
    apply (includes_occurs "N") in E; [|reflexivity].
    apply (occurs_cleaned "N" "n" s upper_N eq_refl) in E.
    pose proof (allChars_occurs _ _ _ Hall E) as F. vm_compute in F. discriminate F.
  - destruct (includes "24 HR" (toUpperCase s)) eqn:E; [|reflexivity].
    apply (includes_occurs "H") in E; [|reflexivity].
    apply (occurs_cleaned "H" "h" s upper_H eq_refl) in E.
    pose proof (allChars_occurs _ _ _ Hall E) as F. vm_compute in F. discriminate F.
Qed.

End ClockReading.

(** X3: an hours text that, once lower-cased and stripped of white space,
    is two groups of three or four digits around a hyphen is read as two
    clock times: the group written as the number HHMM stands for minute
    HH * 60 + MM.  Neither side is checked against the length of a day. *)
Theorem parseTimeRange_digit_format (s t1 t2 : string) :
  cleanedOf s = t1 ++ "-" ++ t2 -> clockDigits t1 -> clockDigits t2 ->
  parseTimeRange (VStr s) =
    Ok (Some {| startMin := ofZ (clockMinutes t1); endMin := ofZ (clockMinutes t2) |}).
Proof.
  intros Ec H1 H2. destruct (formatA_reads t1 t2 H1 H2) as (m & Em & E1 & E2).
  rewrite <- Ec in Em. cbn [parseTimeRange].
  rewrite (formatA_not_all_day s m Em), Em.
  unfold fromFormatA. rewrite E1, E2. cbn [receiver bind].
  destruct (clock_reading t1 H1) as [-> ->]. destruct (clock_reading t2 H2) as [-> ->].
  autorewrite with ofZ. reflexivity.
Qed.

Lemma parseTimeRange_digit_format_witness :
  parseTimeRange (VStr " 930 - 1800 ") =
    Ok (Some {| startMin := ofZ 570; endMin := ofZ 1080 |}).
Proof.
  apply (parseTimeRange_digit_format " 930 - 1800 " "930" "1800").
  - reflexivity.
  - split; [reflexivity|cbn; lia].
  - split; [reflexivity|cbn; lia].
Defined.

(** ** Overlap, intersection and coverage together *)

Section OverlapBounds.

(** The overlap lies within the query, and is positive exactly when the
    intersection test of [intersectsRange] succeeds. *)
Lemma overlap_and_intersection (rt : TimeRange) (us ue o : Z) :
  wellShaped rt -> 0 <= us -> us < ue -> ue <= 1440 ->
  overlapMinutes (Some rt) (ofZ us) (ofZ ue) (ofZ (ue - us)) = ofZ o ->
  0 <= o <= ue - us /\
  (if nle (endMin rt) (startMin rt)
   then nlt (nmax (startMin rt) (ofZ us)) (nmin (ofZ 1440) (ofZ ue))
        || nlt (nmax (ofZ 0) (ofZ us)) (nmin (endMin rt) (ofZ ue))
   else nlt (nmax (startMin rt) (ofZ us)) (nmin (endMin rt) (ofZ ue))) = (0 <? o)%Z.
Proof.
  intros [Hs He] H0 Hlt H1 Eo. destruct rt as [s e].
  unfold overlapMinutes in Eo. cbn [startMin endMin] in *.
  destruct Hs as [->|[s' ->]], He as [->|[e' ->]];
    cbn [neq nle nmax nmin nlt andb orb] in Eo |- *;
    split_ifs_in Eo; apply ofZ_inj in Eo; subst o;
    (split; [lia|]); autorewrite with ofZ; try reflexivity;
    repeat match goal with
           | |- context [(?a <=? ?b)%Z] => destruct (Z.leb_spec a b)
           | |- context [(?a <? ?b)%Z] => destruct (Z.ltb_spec a b)
           end; cbn [orb]; try reflexivity; lia.
Qed.

End OverlapBounds.

Section Ratios.


Lemma ndiv_whole (x : Q) (d : Z) :
  0 < d -> (x == inject_Z d)%Q -> ndiv (Fin x) (ofZ d) = ofZ 1.
Proof.
  intros Hd E. unfold ndiv, ofZ. rewrite (ofZ_zero_not_divisor d Hd).
  f_equal. change (inject_Z 1) with (Qred 1). apply Qred_complete.
  rewrite E. pose proof (ofZ_zero_not_divisor d Hd) as Hn.
  apply Qeq_bool_neq in Hn. field. exact Hn.
Qed.




(** A limit that covers the whole overlap leaves the query free. *)
Lemma limited_ratio_whole (limit : num) (d o : Z) :
  nle (ofZ o) limit = true -> 0 < o -> o <= d ->
  nmin (ofZ 1) (ndiv (nadd (ofZ (d - o)) (nmin limit (ofZ o))) (ofZ d)) = ofZ 1.
Proof.
  intros Hl Ho Hd.
  assert (E : exists a, nmin limit (ofZ o) = Fin a /\ (a == inject_Z o)%Q).
  { destruct limit as [| |l|]; try discriminate.
    - cbn [nle ofZ] in Hl. apply Qle_bool_iff in Hl.
      unfold nmin, nle, ofZ. destruct (Qle_bool l (inject_Z o)) eqn:E.
      + apply Qle_bool_iff in E. exists l. split; [reflexivity|].
        apply Qle_antisym; assumption.
      + exists (inject_Z o). split; reflexivity.
    - exists (inject_Z o). split; reflexivity. }
  destruct E as (a & -> & Ea). cbn [nadd ofZ]. fold (ofZ d).
  rewrite ndiv_whole; [reflexivity|lia|].
  rewrite Qred_correct, Ea, <- inject_Z_plus. f_equal. 
  replace (d - o + o) with d by lia. reflexivity.
Qed.

End Ratios.

Section Queries.

Variable props : Props.
Variables start end_ : Date.
Hypothesis valid_start : validDate start.
Hypothesis valid_end : validDate end_.

(** The parsed record and the overlap of a query of positive length. *)
Lemma query_overlap :
  minutes start < minutes end_ ->
  exists activeDays regTime o,
    parseDays (days props) = Ok activeDays /\
    parseTimeRange (hours props) = Ok regTime /\
    overlapMinutes regTime (ofZ (minutes start)) (ofZ (minutes end_))
                   (ofZ (minutes end_ - minutes start)) = ofZ o /\
    0 <= o <= minutes end_ - minutes start /\
    intersectsRange props start end_ =
      Ok (regulationAppliesToday activeDays (getDay start) && (0 <? o)%Z).
Proof.
  intros Hlt.
  pose proof (minutes_range _ valid_start) as Rs.
  pose proof (minutes_range _ valid_end) as Re.
  destruct (parseDays_ok (days props)) as (ad & Ed & _).
  destruct (parseTimeRange_ok (hours props)) as (rt & Et & Hw).
  destruct (overlapMinutes_shape rt _ _ Hw (Z.lt_le_incl _ _ Hlt)) as (o & Eo & Ho).
  exists ad, rt, o. split; [exact Ed|]. split; [exact Et|]. split; [exact Eo|].
  unfold intersectsRange. rewrite Ed, Et. cbn [bind].
  unfold minuteOfDay. fold (minutes start). fold (minutes end_).
  destruct rt as [rt|].
  - destruct (overlap_and_intersection rt (minutes start) (minutes end_) o (Hw _ eq_refl))
      as [Hb Hi];
      [lia|exact Hlt|lia|exact Eo|].
    split; [exact Hb|].
    destruct ad as [ad|]; cbn [excludesDay regulationAppliesToday];
      [destruct (has ad (getDay start))|]; cbn [negb andb]; try reflexivity;
      rewrite <- Hi; destruct (nle (endMin rt) (startMin rt)); reflexivity.
  - cbn [overlapMinutes] in Eo. apply ofZ_inj in Eo. subst o. split; [lia|].
    replace (0 <? minutes end_ - minutes start)%Z with true by lia.
    destruct ad as [ad|]; cbn [excludesDay regulationAppliesToday];
      [destruct (has ad (getDay start))|]; reflexivity.
Qed.


(** A limit at least as long as the query leaves it free. *)
Lemma coverage_limit_covers (text : string) (limit : num) :
  minutes start < minutes end_ ->
  regulationText props = Ok text ->
  test noParkingPattern text = false ->
  timeLimitMinutes props = Some limit ->
  nle (ofZ (minutes end_ - minutes start)) limit = true ->
  calculateCoverage props start end_ = Ok (ofZ 1).
Proof.
  intros Hlt Er Hno El Hle.
  destruct (query_overlap Hlt) as (ad & rt & o & Ed & Et & Eo & Ho & _).
  rewrite (calculateCoverage_cases props start end_ ad rt text o Ed Et Er Hlt Eo).
  rewrite Hno, El.
  destruct (negb (regulationAppliesToday ad (getDay start))); [reflexivity|].
  destruct (Z.eqb_spec o 0) as [_|Hne]; [reflexivity|].
  assert (Hpos : 0 < o) by lia.
  assert (Ht : truthy_num limit = true).
  { destruct limit as [| |l|]; try discriminate; try reflexivity.
    cbn [nle ofZ truthy_num] in Hle |- *. apply Qle_bool_iff in Hle.
    apply negb_true_iff. destruct (Qeq_bool l 0) eqn:E0; [|reflexivity].
    apply Qeq_bool_eq in E0. rewrite E0 in Hle.
    change 0%Q with (inject_Z 0) in Hle. rewrite <- Zle_Qle in Hle. lia. }
  assert (Ho' : nle (ofZ o) limit = true).
  { destruct limit as [| |l|]; try discriminate; try reflexivity.
    cbn [nle ofZ] in Hle |- *. apply Qle_bool_iff in Hle. apply Qle_bool_iff.
    apply Qle_trans with (inject_Z (minutes end_ - minutes start)); [|exact Hle].
    rewrite <- Zle_Qle. lia. }
  rewrite Ht. replace (0 <? o)%Z with true by lia. cbn [andb].
  rewrite limited_ratio_whole; [reflexivity|exact Ho'|exact Hpos|lia].
Qed.

End Queries.

(** X4: for a query of positive length inside one day, [intersectsRange]
    says yes exactly when the regulation applies on the weekday of the
    query and the overlap [calculateCoverage] counts is positive; that
    overlap is never negative and never longer than the query. *)
Theorem intersects_iff_overlap (props : Props) (start end_ : Date) :
  validDate start -> validDate end_ -> minutes start < minutes end_ ->
  exists activeDays regTime o,
    parseDays (days props) = Ok activeDays /\
    parseTimeRange (hours props) = Ok regTime /\
    overlapMinutes regTime (ofZ (minutes start)) (ofZ (minutes end_))
                   (ofZ (minutes end_ - minutes start)) = ofZ o /\
    0 <= o <= minutes end_ - minutes start /\
    intersectsRange props start end_ =
      Ok (regulationAppliesToday activeDays (getDay start) && (0 <? o)%Z).
Proof. intros Hs He Hlt. exact (query_overlap props start end_ Hs He Hlt). Qed.

Lemma intersects_iff_overlap_witness :
  exists activeDays regTime o,
    parseDays (days noParkingSign) = Ok activeDays /\
    parseTimeRange (hours noParkingSign) = Ok regTime /\
    overlapMinutes regTime (ofZ (minutes (mkDate 1 8 0))) (ofZ (minutes (mkDate 1 10 0)))
                   (ofZ (minutes (mkDate 1 10 0) - minutes (mkDate 1 8 0))) = ofZ o /\
    0 <= o <= minutes (mkDate 1 10 0) - minutes (mkDate 1 8 0) /\
    intersectsRange noParkingSign (mkDate 1 8 0) (mkDate 1 10 0) =
      Ok (regulationAppliesToday activeDays (getDay (mkDate 1 8 0)) && (0 <? o)%Z).
Proof.
  apply (intersects_iff_overlap noParkingSign (mkDate 1 8 0) (mkDate 1 10 0)).
  - unfold validDate. cbn. lia.
  - unfold validDate. cbn. lia.
  - vm_compute. reflexivity.
Defined.



(** X6: under an hour limit that is not a no-parking rule, a query of
    positive length inside one day (two valid dates, the minute of day of
    the end after that of the start) that is no longer than the limit is
    free in full: the coverage is 1.0 on every weekday and whatever the
    regulated hours. *)
Theorem coverage_full_within_limit (props : Props) (start end_ : Date)
    (text : string) (limit : num) :
  validDate start -> validDate end_ -> minutes start < minutes end_ ->
  regulationText props = Ok text ->
  test noParkingPattern text = false ->
  timeLimitMinutes props = Some limit ->
  nle (ofZ (minutes end_ - minutes start)) limit = true ->
  calculateCoverage props start end_ = Ok (ofZ 1).
Proof.
  intros Hs He. exact (coverage_limit_covers props start end_ Hs He text limit).
Qed.

Lemma coverage_full_within_limit_witness :
  calculateCoverage meteredSign (mkDate 1 9 0) (mkDate 1 11 0) = Ok (ofZ 1).
Proof.
  apply (coverage_full_within_limit meteredSign (mkDate 1 9 0) (mkDate 1 11 0) ""
           (ofZ 120)).
  - unfold validDate. cbn. lia.
  - unfold validDate. cbn. lia.
  - vm_compute. reflexivity.
  - reflexivity.
  - vm_compute. reflexivity.
  - vm_compute. reflexivity.
  - vm_compute. reflexivity.
Defined.

(** X7: when a record has no hour limit of its own, the hours text stands
    in for it, and its first integer is taken for a number of hours.  From
    24 on (as in "0900-1800", read as 900 hours) the limit exceeds every
    query inside one day, so the coverage is 1.0 unless the record is a
    no-parking rule. *)
Theorem hours_taken_for_hour_limit (props : Props) (start end_ : Date)
    (text hoursText : string) (n : Z) :
  validDate start -> validDate end_ -> minutes start < minutes end_ ->
  regulationText props = Ok text ->
  test noParkingPattern text = false ->
  truthy (hrlimit props) = false ->
  hours props = VStr hoursText ->
  firstIntegerOf hoursText = Some n ->
  24 <= n ->
  calculateCoverage props start end_ = Ok (ofZ 1).
Proof.
  intros Hs He Hlt Er Hno Hh Eh En Hn.
  assert (E : orElse (hrlimit props) (hours props) = VStr hoursText).
  { unfold orElse. rewrite Hh. exact Eh. }
  pose proof (timeLimitMinutes_text props hoursText E) as El.
  destruct (String.eqb_spec hoursText "") as [->|_]; [discriminate En|].
  rewrite En in El. cbn [option_map] in El.
  apply (coverage_limit_covers props start end_ Hs He text (ofZ (n * 60)) Hlt Er Hno El).
  rewrite nle_ofZ. pose proof (minutes_range _ Hs). pose proof (minutes_range _ He). lia.
Qed.

Lemma hours_taken_for_hour_limit_witness :
  calculateCoverage sweepingRule (mkDate 1 9 0) (mkDate 1 18 0) = Ok (ofZ 1).
Proof.
  apply (hours_taken_for_hour_limit sweepingRule (mkDate 1 9 0) (mkDate 1 18 0)
           "street cleaning" "0900-1800" 900).
  - unfold validDate. cbn. lia.
  - unfold validDate. cbn. lia.
  - vm_compute. reflexivity.
  - reflexivity.
  - vm_compute. reflexivity.
  - reflexivity.
  - reflexivity.
  - vm_compute. reflexivity.
  - lia.
Defined.

(** X8: a regulation that is active at an instant, on a weekday it applies
    to, intersects every query that starts at that instant and ends later
    the same day. *)
Theorem active_instant_intersects (props : Props) (start end_ : Date)
    (activeDays : option (list Z)) :
  validDate start -> validDate end_ -> minutes start < minutes end_ ->
  parseDays (days props) = Ok activeDays ->
  regulationAppliesToday activeDays (getDay start) = true ->
  isActiveAt props start = Ok true ->
  intersectsRange props start end_ = Ok true.
Proof.
  intros Hs He Hlt Ed Hday.
  pose proof (minutes_range _ Hs) as Rs. pose proof (minutes_range _ He) as Re.
  destruct (parseTimeRange_ok (hours props)) as (rt & Et & Hw).
  unfold isActiveAt, intersectsRange. rewrite Ed, Et. cbn [bind].
  unfold minuteOfDay. fold (minutes start). fold (minutes end_).
  assert (Hex : excludesDay activeDays (getDay start) = false).
  { destruct activeDays as [ad|]; [|reflexivity].
    cbn [excludesDay regulationAppliesToday] in *. rewrite Hday. reflexivity. }
  rewrite Hex. destruct rt as [[s e]|]; [|reflexivity].
  destruct (Hw _ eq_refl) as [Hst Hen]. cbn [startMin endMin] in *.
  intros Ha. injection Ha as Ha. f_equal.
  destruct activeDays as [ad|]; cbn [activeAt startMin endMin regulationAppliesToday] in *;
    try rewrite Hday in Ha; unfold nge in Ha;
    destruct Hst as [->|[s' ->]], Hen as [->|[e' ->]];
    cbn [nle nlt nmax nmin andb orb] in Ha |- *; try discriminate Ha;
    autorewrite with ofZ in Ha |- *;
    repeat match goal with
           | |- context [(?a <=? ?b)%Z] => destruct (Z.leb_spec a b)
           | |- context [(?a <? ?b)%Z] => destruct (Z.ltb_spec a b)
           | H : context [if ?b then _ else _] |- _ => destruct b eqn:?
           end; cbn [orb andb] in *; try reflexivity; try discriminate; lia.
Qed.

Lemma active_instant_intersects_witness :
  intersectsRange nightRule (mkDate 0 23 0) (mkDate 0 23 30) = Ok true.
Proof.
  apply (active_instant_intersects nightRule (mkDate 0 23 0) (mkDate 0 23 30) None).
  - unfold validDate. cbn. lia.
  - unfold validDate. cbn. lia.
  - vm_compute. reflexivity.
  - reflexivity.
  - reflexivity.
  - vm_compute. reflexivity.
Defined.

(** X9: the part of an overnight window that falls after midnight is seen
    by [isActiveAt] only.  When the window started on a weekday of the day
    set and the next weekday is not in the set, the regulation is active
    at an instant before the window's end, yet a query starting at that
    instant does not intersect it and has coverage 1.0. *)
Theorem overnight_tail_not_in_range (props : Props) (start end_ : Date)
    (daySet : list Z) (text : string) (s e : Z) :
  validDate start -> validDate end_ -> minutes start < minutes end_ ->
  parseDays (days props) = Ok (Some daySet) ->
  parseTimeRange (hours props) = Ok (Some {| startMin := ofZ s; endMin := ofZ e |}) ->
  regulationText props = Ok text ->
  e <= s ->
  has daySet (Z.rem (getDay start - 1 + 7) 7) = true ->
  has daySet (getDay start) = false ->
  minutes start < e ->
  isActiveAt props start = Ok true /\
  intersectsRange props start end_ = Ok false /\
  calculateCoverage props start end_ = Ok (ofZ 1).
Proof.
  intros Hs He Hlt Ed Et Er Hes Hy Ht Hm. split; [|split].
  - unfold isActiveAt. rewrite Ed, Et. cbn [bind activeAt startMin endMin].
    unfold minuteOfDay. fold (minutes start). rewrite Hy. autorewrite with ofZ.
    replace (e <=? s)%Z with true by lia.
    replace (minutes start <? e)%Z with true by lia. reflexivity.
  - unfold intersectsRange. rewrite Ed, Et. cbn [bind excludesDay].
    rewrite Ht. reflexivity.
  - unfold calculateCoverage. rewrite Ed, Et, Er. cbn [bind regulationAppliesToday].
    unfold minuteOfDay. fold (minutes start). fold (minutes end_).
    rewrite nsub_ofZ, nle_ofZ, Ht.
    replace (minutes end_ - minutes start <=? 0)%Z with false by lia. reflexivity.
Qed.

Lemma overnight_tail_not_in_range_witness :
  isActiveAt saturdayNight (mkDate 0 1 0) = Ok true /\
  intersectsRange saturdayNight (mkDate 0 1 0) (mkDate 0 2 0) = Ok false /\
  calculateCoverage saturdayNight (mkDate 0 1 0) (mkDate 0 2 0) = Ok (ofZ 1).
Proof.
  apply (overnight_tail_not_in_range saturdayNight (mkDate 0 1 0) (mkDate 0 2 0) [6] "no parking"
           1320 360).
  - unfold validDate. cbn. lia.
  - unfold validDate. cbn. lia.
  - vm_compute. reflexivity.
  - vm_compute. reflexivity.
  - vm_compute. reflexivity.
  - reflexivity.
  - lia.
  - reflexivity.
  - reflexivity.
  - vm_compute. reflexivity.
Defined.

(** X10: a record whose hours are absent, not a text, an "ANYTIME" text or
    a text in no known format is regulated all day: it is active at every
    instant of the weekdays of its day set (every weekday without one), and
    intersects every query of positive length that starts on such a day. *)
Theorem regulated_all_day (props : Props) (start end_ : Date)
    (activeDays : option (list Z)) :
  validDate start -> validDate end_ -> minutes start < minutes end_ ->
  parseDays (days props) = Ok activeDays ->
  parseTimeRange (hours props) = Ok None \/
  parseTimeRange (hours props) = Ok (Some allDay) ->
  isActiveAt props start = Ok (regulationAppliesToday activeDays (getDay start)) /\
  intersectsRange props start end_ = Ok (regulationAppliesToday activeDays (getDay start)).
Proof.
  intros Hs He Hlt Ed Et.
  pose proof (minutes_range _ Hs) as Rs. pose proof (minutes_range _ He) as Re.
  unfold isActiveAt, intersectsRange. rewrite Ed.
  destruct Et as [-> | ->]; cbn [bind]; unfold minuteOfDay; fold (minutes start);
    fold (minutes end_);
    destruct activeDays as [ad|];
    cbn [activeAt excludesDay regulationAppliesToday allDay startMin endMin];
    try destruct (has ad (getDay start)); cbn [negb andb]; unfold nge;
    autorewrite with ofZ; cbn [negb andb];
    repeat match goal with
           | |- context [(?a <=? ?b)%Z] => destruct (Z.leb_spec a b)
           | |- context [(?a <? ?b)%Z] => destruct (Z.ltb_spec a b)
           end; cbn [orb andb]; try (split; reflexivity); lia.
Qed.

Lemma regulated_all_day_witness :
  isActiveAt unreadableHours (mkDate 2 3 0) = Ok true /\
  intersectsRange unreadableHours (mkDate 2 3 0) (mkDate 2 4 0) = Ok true.
Proof.
  apply (regulated_all_day unreadableHours (mkDate 2 3 0) (mkDate 2 4 0) (Some [1; 2; 3; 4; 5])).
  - unfold validDate. cbn. lia.
  - unfold validDate. cbn. lia.
  - vm_compute. reflexivity.
  - vm_compute. reflexivity.
  - left. vm_compute. reflexivity.
Defined.

(** ** The map *)

Section MapColours.

(** The colour tests of range mode on a ratio of free minutes. *)
Lemma ratio_colours (d o : Z) :
  0 < d -> 0 < o <= d ->
  nge (ndiv (ofZ (d - o)) (ofZ d)) (ofZ 1) = false /\
  ngt (ndiv (ofZ (d - o)) (ofZ d)) (ofZ 0) = (o <? d)%Z.
Proof.
  intros Hd Ho. unfold nge, ngt, ndiv, ofZ. rewrite (ofZ_zero_not_divisor d Hd).
  cbn [nle nlt]. destruct d as [|p|p]; try lia.
  remember (Z.pos p - o) as a eqn:Ea. split.
  - destruct (Qle_bool (inject_Z 1) (Qred (inject_Z a / inject_Z (Z.pos p)))) eqn:E;
      [|reflexivity].
    exfalso. apply Qle_bool_iff in E. rewrite Qred_correct in E.
    unfold Qle, Qdiv, Qmult, Qinv, inject_Z in E. cbn in E. lia.
  - change (inject_Z 0) with 0%Q.
    destruct (Qle_bool (Qred (inject_Z a / inject_Z (Z.pos p))) 0) eqn:E; cbn [negb].
    + apply Qle_bool_iff in E. rewrite Qred_correct in E.
      unfold Qle, Qdiv, Qmult, Qinv, inject_Z in E. cbn in E.
      symmetry. apply Z.ltb_ge. lia.
    + assert (F : ~ (inject_Z a / inject_Z (Z.pos p) <= 0)%Q).
      { intros F. rewrite <- Qred_correct in F. apply Qle_bool_iff in F. congruence. }
      unfold Qle, Qdiv, Qmult, Qinv, inject_Z in F. cbn in F.
      symmetry. apply Z.ltb_lt. lia.
Qed.

Lemma ratio_none (d : Z) : 0 < d -> ndiv (ofZ (d - d)) (ofZ d) = ofZ 0.
Proof.
  intros Hd. rewrite Z.sub_diag. unfold ndiv, ofZ.
  rewrite (ofZ_zero_not_divisor d Hd). reflexivity.
Qed.

Variable filters : Filters.
Variable props : Props.

Hypothesis range_mode_on : simulationEnabled filters = true.
Hypothesis range_mode : simulationMode filters = "range".

Lemma withStatus_range :
  withStatus filters props =
    let* isActive := intersectsRange props (rangeStart filters) (rangeEnd filters) in
    let* coverage := calculateCoverage props (rangeStart filters) (rangeEnd filters) in
    Ok (mkFeature props (Some isActive) (Some coverage)).
Proof.
  unfold withStatus, currentMode. rewrite range_mode_on, range_mode. reflexivity.
Qed.

Lemma styleOf_range (isActive : option bool) (coverage : num) (cls : RegulationClass) :
  classifyRegulation props = Ok cls ->
  styleOf filters (mkFeature props isActive (Some coverage)) =
    Ok (mkStyle (if nge coverage (ofZ 1) then "#2196F3"
                 else if ngt coverage (ofZ 0) then "#FFC107"
                 else "#d73027") 3 (Some (ofZ 1)) None).
Proof.
  intros Ec. unfold styleOf, styleForFeature, currentMode.
  rewrite range_mode_on, range_mode. cbn [properties _coverage].
  rewrite Ec. reflexivity.
Qed.

End MapColours.

Section Classes.

Variable props : Props.

Lemma classifyRegulation_ok (text : string) :
  regulationText props = Ok text -> exists cls, classifyRegulation props = Ok cls.
Proof.
  intros Er. unfold classifyRegulation. rewrite Er. cbn [bind].
  repeat match goal with
         | |- context [if ?b then _ else _] => destruct b
         end; eauto.
Qed.

(** What the class "NoRegulation" says of a record. *)
Lemma classifyRegulation_none :
  classifyRegulation props = Ok NoRegulation ->
  exists text,
    regulationText props = Ok text /\
    test noParkingPattern text = false /\
    truthy (hrlimit props) = false /\ truthy (hours props) = false.
Proof.
  unfold classifyRegulation. destruct (regulationText props) as [text|e]; [|discriminate].
  cbn [bind]. intros H. exists text. split; [reflexivity|].
  destruct (test noParkingPattern text); [discriminate|].
  destruct (test restrictedUsePattern text); [discriminate|].
  destruct (truthy (orElse (hrlimit props) (hours props))) eqn:Et; [discriminate|].
  split; [reflexivity|]. unfold orElse in Et.
  destruct (truthy (hrlimit props)) eqn:Eh; [congruence|]. split; [reflexivity|exact Et].
Qed.

Lemma falsy_hours_all_day :
  truthy (hours props) = false -> parseTimeRange (hours props) = Ok (Some allDay).
Proof.
  destruct (hours props) as [| |s|n]; try reflexivity.
  cbn [truthy parseTimeRange]. destruct (String.eqb_spec s "") as [->|]; [|discriminate].
  reflexivity.
Qed.

Lemma falsy_limit :
  truthy (hrlimit props) = false -> truthy (hours props) = false ->
  match timeLimitMinutes props with
  | Some limit => truthy_num limit = false
  | None => True
  end.
Proof.
  intros Eh Et. unfold timeLimitMinutes, orElse. rewrite Eh.
  destruct (hours props) as [| |s|n]; try exact I.
  - rewrite Et. exact I.
  - cbn [truthy] in Et. destruct n as [| |q|]; try discriminate; [reflexivity|].
    cbn [truthy_num nmul ofZ] in Et |- *. apply negb_false_iff in Et.
    apply negb_false_iff. apply Qeq_bool_eq in Et. apply Qeq_bool_iff.
    rewrite Qred_correct, Et. apply Qmult_0_l.
Qed.

End Classes.

Section Pairwise.

Context {A B : Type} (R : A -> B -> Prop).

Lemma Forall2_In_l (l : list A) (l' : list B) (a : A) :
  Forall2 R l l' -> In a l -> exists b, In b l' /\ R a b.
Proof.
  induction 1 as [|x y l l' Hxy _ IH]; cbn [In]; [intros []|].
  intros [<-|Hin]; [eauto|]. destruct (IH Hin) as (b & Hb & Hab). eauto.
Qed.

Lemma Forall2_In_r (l : list A) (l' : list B) (b : B) :
  Forall2 R l l' -> In b l' -> exists a, In a l /\ R a b.
Proof.
  induction 1 as [|x y l l' Hxy _ IH]; cbn [In]; [intros []|].
  intros [<-|Hin]; [eauto|]. destruct (IH Hin) as (a & Ha & Hab). eauto.
Qed.

End Pairwise.

Section RangeMode.

Variable filters : Filters.
Hypothesis range_mode_on : simulationEnabled filters = true.
Hypothesis range_mode : simulationMode filters = "range".
Hypothesis valid_start : validDate (rangeStart filters).
Hypothesis valid_end : validDate (rangeEnd filters).
Hypothesis positive_length : minutes (rangeStart filters) < minutes (rangeEnd filters).

(** What the map computes for one record in range mode. *)
Lemma withStatus_range_cases (props : Props) (text : string) :
  regulationText props = Ok text ->
  exists activeDays regTime o coverage,
    parseDays (days props) = Ok activeDays /\
    parseTimeRange (hours props) = Ok regTime /\
    overlapMinutes regTime (ofZ (minutes (rangeStart filters)))
                   (ofZ (minutes (rangeEnd filters)))
                   (ofZ (minutes (rangeEnd filters) - minutes (rangeStart filters)))
      = ofZ o /\
    0 <= o <= minutes (rangeEnd filters) - minutes (rangeStart filters) /\
    calculateCoverage props (rangeStart filters) (rangeEnd filters) = Ok coverage /\
    withStatus filters props =
      Ok (mkFeature props
            (Some (regulationAppliesToday activeDays (getDay (rangeStart filters))
                   && (0 <? o)%Z))
            (Some coverage)).
Proof.
  intros Er.
  destruct (query_overlap props _ _ valid_start valid_end positive_length)
    as (ad & rt & o & Ed & Et & Eo & Ho & Ei).
  destruct (calculateCoverage_ok props (rangeStart filters) (rangeEnd filters) text Er)
    as (coverage & Ec).
  exists ad, rt, o, coverage. split; [exact Ed|]. split; [exact Et|].
  split; [exact Eo|]. split; [exact Ho|]. split; [exact Ec|].
  rewrite (withStatus_range filters props range_mode_on range_mode), Ei, Ec.
  reflexivity.
Qed.

(** A record that is not drawn as active has the whole query free. *)
Lemma inactive_is_free (props : Props) (text : string) (coverage : num) :
  regulationText props = Ok text ->
  withStatus filters props = Ok (mkFeature props (Some false) (Some coverage)) ->
  coverage = ofZ 1.
Proof.
  intros Er Ew.
  destruct (withStatus_range_cases props text Er)
    as (ad & rt & o & c & Ed & Et & Eo & Ho & Ec & Ew').
  rewrite Ew' in Ew. injection Ew as Ea <-.
  rewrite (calculateCoverage_cases props _ _ ad rt text o Ed Et Er positive_length Eo) in Ec.
  destruct (regulationAppliesToday ad (getDay (rangeStart filters))); cbn [negb andb] in *.
  - destruct (Z.eqb_spec o 0) as [_|Hne]; [congruence|].
    exfalso. apply Z.ltb_ge in Ea. lia.
  - congruence.
Qed.

Lemma mapFeatures_range (features : list Props) :
  Forall (fun props => exists text, regulationText props = Ok text) features ->
  exists fs,
    mapFeatures filters features = Ok fs /\
    Forall2 (fun props f =>
               exists isActive coverage,
                 withStatus filters props = Ok f /\
                 f = mkFeature props (Some isActive) (Some coverage) /\
                 calculateCoverage props (rangeStart filters) (rangeEnd filters)
                 = Ok coverage)
            features fs.
Proof.
  induction 1 as [|props features [text Er] _ (fs & Em & IH)]; cbn [mapFeatures].
  - exists []. split; [reflexivity|constructor].
  - destruct (withStatus_range_cases props text Er)
      as (ad & rt & o & c & _ & _ & _ & _ & Ec & Ew).
    rewrite Ew, Em. cbn [bind]. eexists. split; [reflexivity|].
    constructor; [|exact IH]. eauto.
Qed.

End RangeMode.

(** X11: in range mode, for a range of positive length inside one day (two
    valid dates, the minute of day of the end after that of the start), a
    no-parking record on a weekday of its day set is painted after its
    overlap with the query: blue when they share no minute (the record is
    then marked inactive), red when the regulated hours cover the whole
    query, yellow in between. *)
Theorem range_colours_no_parking (filters : Filters) (props : Props) (text : string)
    (activeDays : option (list Z)) :
  simulationEnabled filters = true -> simulationMode filters = "range" ->
  validDate (rangeStart filters) -> validDate (rangeEnd filters) ->
  minutes (rangeStart filters) < minutes (rangeEnd filters) ->
  regulationText props = Ok text -> test noParkingPattern text = true ->
  parseDays (days props) = Ok activeDays ->
  regulationAppliesToday activeDays (getDay (rangeStart filters)) = true ->
  let duration := minutes (rangeEnd filters) - minutes (rangeStart filters) in
  exists regTime o f st,
    parseTimeRange (hours props) = Ok regTime /\
    overlapMinutes regTime (ofZ (minutes (rangeStart filters)))
                   (ofZ (minutes (rangeEnd filters))) (ofZ duration) = ofZ o /\
    withStatus filters props = Ok f /\
    _isActive f = Some (0 <? o)%Z /\
    styleOf filters f = Ok st /\
    color st = (if (o =? 0)%Z then "#2196F3"
                else if (o <? duration)%Z then "#FFC107" else "#d73027").
Proof.
  intros Hon Hmode Hs He Hlt Er Hno Ed Hday duration.
  destruct (withStatus_range_cases filters Hon Hmode Hs He Hlt props text Er)
    as (ad & rt & o & c & Ed' & Et & Eo & Ho & Ec & Ew).
  rewrite Ed in Ed'. injection Ed' as <-. rewrite Hday in Ew. cbn [andb] in Ew.
  rewrite (calculateCoverage_cases props _ _ activeDays rt text o Ed Et Er Hlt Eo) in Ec.
  rewrite Hday, Hno in Ec. cbn [negb] in Ec.
  assert (Ecls : classifyRegulation props = Ok CannotPark).
  { unfold classifyRegulation. rewrite Er. cbn [bind]. rewrite Hno. reflexivity. }
  exists rt, o. eexists. eexists.
  split; [exact Et|]. split; [exact Eo|]. split; [exact Ew|].
  split; [reflexivity|].
  split; [apply (styleOf_range filters props Hon Hmode _ _ CannotPark Ecls)|].
  cbn [color]. unfold duration.
  destruct (Z.eqb_spec o 0) as [->|Hne].
  - assert (E1 : c = ofZ 1) by congruence. subst c. reflexivity.
  - assert (E1 : c = ndiv (ofZ (minutes (rangeEnd filters) - minutes (rangeStart filters) - o))
                          (ofZ (minutes (rangeEnd filters) - minutes (rangeStart filters))))
      by congruence.
    subst c.
    destruct (ratio_colours (minutes (rangeEnd filters) - minutes (rangeStart filters)) o)
      as [-> ->]; [lia|lia|reflexivity].
Qed.

Lemma range_colours_no_parking_witness :
  exists regTime o f st,
    parseTimeRange (hours noParkingSign) = Ok regTime /\
    overlapMinutes regTime (ofZ 480) (ofZ 600) (ofZ 120) = ofZ o /\
    withStatus mondayQuery
               noParkingSign = Ok f /\
    _isActive f = Some (0 <? o)%Z /\
    styleOf mondayQuery f
      = Ok st /\
    color st = (if (o =? 0)%Z then "#2196F3"
                else if (o <? 120)%Z then "#FFC107" else "#d73027").
Proof.
  apply (range_colours_no_parking
           mondayQuery
           noParkingSign "no parking 9am-6pm" (Some [1; 2; 3; 4; 5])).
  - reflexivity.
  - reflexivity.
  - unfold validDate. cbn. lia.
  - unfold validDate. cbn. lia.
  - vm_compute. reflexivity.
  - reflexivity.
  - vm_compute. reflexivity.
  - vm_compute. reflexivity.
  - reflexivity.
Defined.

(** X12: in range mode with the inactive segments hidden, for a range of
    positive length inside one day (two valid dates, the minute of day of
    the end after that of the start) and records whose regulation is a
    text or falsy, every record is processed, a drawn feature is one
    marked active, and no record is left out unless the whole query is
    free there (coverage 1.0). *)
Theorem range_filter_hides_free_only (filters : Filters) (features : list Props) :
  simulationEnabled filters = true -> simulationMode filters = "range" ->
  showInactiveDim filters = false ->
  validDate (rangeStart filters) -> validDate (rangeEnd filters) ->
  minutes (rangeStart filters) < minutes (rangeEnd filters) ->
  Forall (fun props => exists text, regulationText props = Ok text) features ->
  exists drawn,
    processedFeatures filters features = Ok drawn /\
    (forall f, In f drawn -> In (properties f) features /\ _isActive f = Some true) /\
    (forall props,
        In props features ->
        calculateCoverage props (rangeStart filters) (rangeEnd filters) = Ok (ofZ 1) \/
        exists coverage, In (mkFeature props (Some true) (Some coverage)) drawn).
Proof.
  intros Hon Hmode Hdim Hs He Hlt Hall.
  destruct (mapFeatures_range filters Hon Hmode Hs He Hlt features Hall) as (fs & Em & Hfs).
  unfold processedFeatures. rewrite Em, Hdim. cbn [bind].
  eexists. split; [reflexivity|]. split.
  - intros f Hin. apply filter_In in Hin. destruct Hin as [Hin Hact].
    destruct (Forall2_In_r _ _ _ _ Hfs Hin) as (props & Hp & a & c & _ & -> & _).
    cbn [properties _isActive notActive] in *. split; [exact Hp|].
    destruct a; [reflexivity|discriminate Hact].
  - intros props Hin.
    destruct (Forall2_In_l _ _ _ _ Hfs Hin) as (f & Hf & a & c & Ew & -> & Ec).
    rewrite Forall_forall in Hall. destruct (Hall _ Hin) as [text Er].
    destruct a.
    + right. exists c. apply filter_In. split; [exact Hf|reflexivity].
    + left. rewrite Ec.
      rewrite (inactive_is_free filters Hon Hmode Hs He Hlt props text c Er Ew).
      reflexivity.
Qed.

Lemma range_filter_hides_free_only_witness :
  exists drawn,
    processedFeatures
      mondayQueryHidden
      [noParkingSign; nightRule] = Ok drawn /\
    (forall f, In f drawn ->
               In (properties f) [noParkingSign; nightRule] /\ _isActive f = Some true) /\
    (forall props,
        In props [noParkingSign; nightRule] ->
        calculateCoverage props (mkDate 1 8 0) (mkDate 1 10 0) = Ok (ofZ 1) \/
        exists coverage, In (mkFeature props (Some true) (Some coverage)) drawn).
Proof.
  apply (range_filter_hides_free_only
           mondayQueryHidden
           [noParkingSign; nightRule]).
  - reflexivity.
  - reflexivity.
  - reflexivity.
  - unfold validDate. cbn. lia.
  - unfold validDate. cbn. lia.
  - vm_compute. reflexivity.
  - repeat constructor; eexists; reflexivity.
Defined.

Section NaNWindows.

Variable props : Props.
Variable w : TimeRange.
Hypothesis window : parseTimeRange (hours props) = Ok (Some w).
Hypothesis end_NaN : endMin w = NaN.

Lemma NaN_end_not_active (date : Date) : isActiveAt props date = Ok false.
Proof.
  unfold isActiveAt. destruct (parseDays_ok (days props)) as (ad & -> & _).
  rewrite window. cbn [bind]. f_equal. unfold activeAt. rewrite end_NaN.
  autorewrite with ofZ. cbn [nle]. destruct ad; autorewrite with ofZ; reflexivity.
Qed.

Lemma NaN_end_no_intersection (start end_ : Date) :
  intersectsRange props start end_ = Ok false.
Proof.
  unfold intersectsRange. destruct (parseDays_ok (days props)) as (ad & -> & _).
  rewrite window. cbn [bind]. rewrite end_NaN.
  destruct (excludesDay ad (getDay start)); [reflexivity|].
  cbn [nle]. autorewrite with ofZ. cbn [nmin]. autorewrite with ofZ. reflexivity.
Qed.

Lemma NaN_end_free (start end_ : Date) (text : string) :
  regulationText props = Ok text -> minutes start < minutes end_ ->
  calculateCoverage props start end_ = Ok (ofZ 1).
Proof.
  intros Er Hlt. destruct (parseDays_ok (days props)) as (ad & Ed & _).
  assert (Eo : overlapMinutes (Some w) (ofZ (minutes start)) (ofZ (minutes end_))
                              (ofZ (minutes end_ - minutes start)) = ofZ 0).
  { destruct w as [st en]. cbn [endMin] in end_NaN. subst en.
    apply overlapMinutes_NaN_end. }
  rewrite (calculateCoverage_cases props start end_ ad (Some w) text 0 Ed window Er Hlt Eo).
  destruct (negb (regulationAppliesToday ad (getDay start))); reflexivity.
Qed.

End NaNWindows.

(** X13: a record that [classifyRegulation] puts in the class
    "NoRegulation" is blue when the simulation is off, but in range mode,
    on a weekday of its day set, it is marked active with coverage 0 and
    painted red, whatever the query of positive length. *)
Theorem no_regulation_red_in_range (filters : Filters) (props : Props)
    (activeDays : option (list Z)) :
  classifyRegulation props = Ok NoRegulation ->
  simulationEnabled filters = true -> simulationMode filters = "range" ->
  validDate (rangeStart filters) -> validDate (rangeEnd filters) ->
  minutes (rangeStart filters) < minutes (rangeEnd filters) ->
  parseDays (days props) = Ok activeDays ->
  regulationAppliesToday activeDays (getDay (rangeStart filters)) = true ->
  (forall filters',
      simulationEnabled filters' = false ->
      exists f st,
        withStatus filters' props = Ok f /\ styleOf filters' f = Ok st /\
        color st = "#2196F3") /\
  (exists f st,
      withStatus filters props = Ok f /\
      _isActive f = Some true /\ _coverage f = Some (ofZ 0) /\
      styleOf filters f = Ok st /\ color st = "#d73027").
Proof.
  intros Ecls Hon Hmode Hs He Hlt Ed Hday.
  destruct (classifyRegulation_none props Ecls) as (text & Er & Hno & Hh & Ht).
  split.
  - intros filters' Hoff. eexists. eexists.
    unfold withStatus, styleOf, currentMode. rewrite Hoff. cbn [String.eqb Ascii.eqb Bool.eqb].
    split; [reflexivity|]. unfold styleForFeature. cbn [properties _coverage].
    rewrite Ecls. cbn [bind notActive _isActive negb]. rewrite andb_false_r.
    split; reflexivity.
  - pose proof (falsy_hours_all_day props Ht) as Et.
    pose proof (minutes_range _ Hs) as Rs. pose proof (minutes_range _ He) as Re.
    set (d := minutes (rangeEnd filters) - minutes (rangeStart filters)).
    assert (Eo : overlapMinutes (Some allDay) (ofZ (minutes (rangeStart filters)))
                                (ofZ (minutes (rangeEnd filters))) (ofZ d) = ofZ d)
      by reflexivity.
    assert (Ec : calculateCoverage props (rangeStart filters) (rangeEnd filters)
                 = Ok (ofZ 0)).
    { rewrite (calculateCoverage_cases props _ _ activeDays (Some allDay) text d
                 Ed Et Er Hlt Eo).
      rewrite Hday, Hno. cbn [negb]. fold d.
      replace (d =? 0)%Z with false by (unfold d; lia).
      pose proof (falsy_limit props Hh Ht) as Hl.
      destruct (timeLimitMinutes props) as [limit|]; [rewrite Hl; cbn [andb]|];
        rewrite ratio_none by (unfold d; lia); reflexivity. }
    assert (Ei : intersectsRange props (rangeStart filters) (rangeEnd filters) = Ok true).
    { destruct (query_overlap props _ _ Hs He Hlt) as (ad & rt & o & Ed' & Et' & Eo' & _ & ->).
      rewrite Ed in Ed'. injection Ed' as <-. rewrite Et in Et'. injection Et' as <-.
      fold d in Eo'. rewrite Eo in Eo'. apply ofZ_inj in Eo'. subst o.
      rewrite Hday. replace (0 <? d)%Z with true by (unfold d; lia). reflexivity. }
    eexists. eexists.
    rewrite (withStatus_range filters props Hon Hmode), Ei, Ec. cbn [bind].
    split; [reflexivity|]. split; [reflexivity|]. split; [reflexivity|].
    split; [apply (styleOf_range filters props Hon Hmode _ _ NoRegulation Ecls)|].
    reflexivity.
Qed.

Lemma no_regulation_red_in_range_witness :
  (forall filters',
      simulationEnabled filters' = false ->
      exists f st,
        withStatus filters' unmarkedSegment = Ok f /\
        styleOf filters' f = Ok st /\ color st = "#2196F3") /\
  (exists f st,
      withStatus mondayQuery
                 unmarkedSegment = Ok f /\
      _isActive f = Some true /\ _coverage f = Some (ofZ 0) /\
      styleOf mondayQuery f
        = Ok st /\
      color st = "#d73027").
Proof.
  apply (no_regulation_red_in_range
           mondayQuery
           unmarkedSegment None).
  - vm_compute. reflexivity.
  - reflexivity.
  - reflexivity.
  - unfold validDate. cbn. lia.
  - unfold validDate. cbn. lia.
  - vm_compute. reflexivity.
  - reflexivity.
  - reflexivity.
Defined.

(** X14: a record whose hours are written in the am/pm format is shown as
    free in both simulation modes, whatever its regulation says: it is
    marked inactive and painted blue at every instant in At mode, and in
    range mode for every range in which the minute of day of the end is
    after that of the start; in both cases it is left out of the map when
    inactive segments are hidden. *)
Theorem flexible_hours_shown_free (filters : Filters) (props : Props)
    (hoursText text : string) :
  hours props = VStr hoursText ->
  exec formatA (cleanedOf hoursText) = None ->
  exec formatB (cleanedOf hoursText) <> None ->
  regulationText props = Ok text ->
  simulationEnabled filters = true ->
  simulationMode filters = "at" \/
  (simulationMode filters = "range" /\
   minutes (rangeStart filters) < minutes (rangeEnd filters)) ->
  exists f st,
    withStatus filters props = Ok f /\
    _isActive f = Some false /\
    styleOf filters f = Ok st /\ color st = "#2196F3" /\
    (showInactiveDim filters = false -> processedFeatures filters [props] = Ok []).
Proof.
  intros Eh EA EB Er Hon Hmode.
  pose proof (formatB_not_all_day hoursText EB) as Eall.
  destruct (exec formatB (cleanedOf hoursText)) as [m|] eqn:Em; [|congruence].
  destruct (formatB_end_NaN _ _ Em) as (_ & _ & Hend).
  assert (Et : parseTimeRange (hours props) = Ok (Some (fromFormatB m))).
  { rewrite Eh. cbn [parseTimeRange]. rewrite Eall, EA, Em. reflexivity. }
  destruct (classifyRegulation_ok props text Er) as (cls & Ecls).
  destruct Hmode as [Hat|[Hrange Hlt]].
  - assert (Ew : withStatus filters props = Ok (mkFeature props (Some false) None)).
    { unfold withStatus, currentMode. rewrite Hon, Hat.
      cbn [String.eqb Ascii.eqb Bool.eqb].
      rewrite (NaN_end_not_active props _ Et Hend). reflexivity. }
    eexists. eexists. split; [exact Ew|]. split; [reflexivity|].
    split.
    { unfold styleOf, styleForFeature, currentMode. rewrite Hon, Hat.
      cbn [String.eqb Ascii.eqb Bool.eqb properties]. rewrite Ecls. reflexivity. }
    split; [reflexivity|].
    intros Hdim. unfold processedFeatures. cbn [mapFeatures]. rewrite Ew, Hdim.
      reflexivity.
  - assert (Ew : withStatus filters props
                 = Ok (mkFeature props (Some false) (Some (ofZ 1)))).
    { rewrite (withStatus_range filters props Hon Hrange).
      rewrite (NaN_end_no_intersection props _ Et Hend).
      rewrite (NaN_end_free props _ Et Hend _ _ text Er Hlt). reflexivity. }
    eexists. eexists. split; [exact Ew|]. split; [reflexivity|].
    split; [apply (styleOf_range filters props Hon Hrange _ _ cls Ecls)|].
    split; [reflexivity|].
    intros Hdim. unfold processedFeatures. cbn [mapFeatures]. rewrite Ew, Hdim.
    reflexivity.
Qed.

Lemma flexible_hours_shown_free_witness :
  exists f st,
    withStatus mondayInstant
               amPmSign
      = Ok f /\
    _isActive f = Some false /\
    styleOf mondayInstant f
      = Ok st /\
    color st = "#2196F3" /\
    (showInactiveDim
       mondayInstant = false ->
     processedFeatures
       mondayInstant
       [amPmSign] = Ok []).
Proof.
  apply (flexible_hours_shown_free
           mondayInstant
           amPmSign
           "8am-6pm" "no parking").
  - reflexivity.
  - vm_compute. reflexivity.
  - vm_compute. discriminate.
  - reflexivity.
  - reflexivity.
  - left. reflexivity.
Defined.

(** X15: the overlap is additive in the query: the minutes a window shares
    with a query cut in two at any instant are the minutes it shares with
    the two parts. *)
Theorem overlap_additive (w : TimeRange) (us um ue : Z) :
  wellShaped w ->
  us <= um <= ue ->
  exists o1 o2,
    overlapMinutes (Some w) (ofZ us) (ofZ um) (ofZ (um - us)) = ofZ o1 /\
    overlapMinutes (Some w) (ofZ um) (ofZ ue) (ofZ (ue - um)) = ofZ o2 /\
    overlapMinutes (Some w) (ofZ us) (ofZ ue) (ofZ (ue - us)) = ofZ (o1 + o2).
Proof.
  intros [Hs He] Hle. destruct w as [s e]. cbn [startMin endMin] in Hs, He.
  unfold overlapMinutes. cbn [startMin endMin].
  destruct Hs as [->|[s' ->]], He as [->|[e' ->]]; cbn [neq nle nmax nmin nlt andb];
    split_ifs; eexists; eexists;
    (split; [reflexivity|]); (split; [reflexivity|]); f_equal; lia.
Qed.

Lemma overlap_additive_witness :
  exists o1 o2,
    overlapMinutes (Some nightWindow)
                   (ofZ 300) (ofZ 720) (ofZ (720 - 300)) = ofZ o1 /\
    overlapMinutes (Some nightWindow)
                   (ofZ 720) (ofZ 1380) (ofZ (1380 - 720)) = ofZ o2 /\
    overlapMinutes (Some nightWindow)
                   (ofZ 300) (ofZ 1380) (ofZ (1380 - 300)) = ofZ (o1 + o2).
Proof.
  apply (overlap_additive nightWindow 300 720 1380).
  - split; right; eexists; reflexivity.
  - lia.
Defined.
